(** * A shallow embedding of [json_plan_tool.py]

    The JSON Pointer helpers (RFC 6901), the JSON Patch applier (RFC 6902),
    the layer cloning and the atomic writer of
    [src/Jason updates/json_plan_tool.py], with the loops of the two scripts
    beside it that apply and consolidate the repository's patches, and the
    merge step of [update_plan_from_template] in
    [src/json_plan_tool_extended.py].

    Conventions of the embedding.

    - A Python [str] is a Rocq [string], i.e. the UTF-8 bytes of the text.
      The source only splits on ["/"] and replaces the ASCII patterns ["~1"]
      and ["~0"]; on UTF-8 these byte-level operations agree with the
      code-point-level ones.  [int()] reads the code points back from the
      bytes, so that the digits and the white space of every script count as
      they do in Python.
    - A document is what [json.loads] returns: [None], [bool], [int], [str],
      [list] and [dict] with string keys.  Floats are outside the model.
      A [dict] keeps insertion order, so it is an association list.
    - The helpers mutate the document in place and raise exceptions.  A
      document loaded from JSON is a tree without sharing, so the mutation is
      written as explicit state passing: a mutating function returns either
      its Python result, or the exception together with the state in which it
      leaves the document object. *)

From Stdlib Require Import ZArith List Bool Ascii String DecimalString Lia.
Import ListNotations.

Local Open Scope string_scope.
Local Open Scope list_scope.

(** ** Python strings *)

Module PyStr.

(** [s.replace(old, new)] for a non-empty [old]: left to right, without
    overlap.  [skip] counts the characters of a match still to be dropped. *)
Fixpoint replace_from (skip : nat) (old new s : string) : string :=
  match s with
  | EmptyString => EmptyString
  | String c s' =>
      match skip with
      | S k => replace_from k old new s'
      | O =>
          if prefix old s
          then new ++ replace_from (String.length old - 1) old new s'
          else String c (replace_from 0 old new s')
      end
  end.

(** With an empty [old], Python puts [new] before every character and at
    the end. *)
Fixpoint interleave (new s : string) : string :=
  match s with
  | EmptyString => new
  | String c s' => new ++ String c (interleave new s')
  end.

Definition replace (old new s : string) : string :=
  match old with
  | EmptyString => interleave new s
  | _ => replace_from 0 old new s
  end.

(** [s.split(sep)] for a separator of one character. *)
Fixpoint split (sep : ascii) (s : string) : list string :=
  match s with
  | EmptyString => [EmptyString]
  | String c s' =>
      let r := split sep s' in
      if Ascii.eqb c sep then EmptyString :: r
      else match r with
           | h :: t => String c h :: t
           | [] => [String c EmptyString]
           end
  end.

(** [s.startswith(p)] *)
Definition startswith (p s : string) : bool := prefix p s.

(** [sub in s] on two strings *)
Fixpoint contains (sub s : string) : bool :=
  prefix sub s ||
  match s with
  | EmptyString => false
  | String _ s' => contains sub s'
  end.

(** [s[:n]] *)
Definition take (n : nat) (s : string) : string := substring 0 n s.

(** White space that [int()] strips from an ASCII string:
    [\t \n \v \f \r] and the space. *)
Definition is_space (c : ascii) : bool :=
  let n := nat_of_ascii c in
  ((9 <=? n) && (n <=? 13) || (n =? 32))%nat.

Fixpoint lstrip (s : string) : string :=
  match s with
  | EmptyString => EmptyString
  | String c s' => if is_space c then lstrip s' else s
  end.

Fixpoint rstrip (s : string) : string :=
  match s with
  | EmptyString => EmptyString
  | String c s' =>
      match rstrip s' with
      | EmptyString => if is_space c then EmptyString else String c EmptyString
      | r => String c r
      end
  end.

Definition strip (s : string) : string := rstrip (lstrip s).

Definition digit_of (c : ascii) : option Z :=
  let n := nat_of_ascii c in
  if ((48 <=? n) && (n <=? 57))%nat then Some (Z.of_nat n - 48)%Z else None.

(** Decimal digits, single underscores allowed between two digits. *)
Fixpoint digits (acc : Z) (after_digit : bool) (s : string) : option Z :=
  match s with
  | EmptyString => if after_digit then Some acc else None
  | String c s' =>
      match digit_of c with
      | Some d => digits (10 * acc + d)%Z true s'
      | None =>
          if Ascii.eqb c "_" && after_digit then digits acc false s' else None
      end
  end.

Fixpoint count_digits (s : string) : nat :=
  match s with
  | EmptyString => 0
  | String c s' =>
      match digit_of c with
      | Some _ => S (count_digits s')
      | None => count_digits s'
      end
  end.

(** [sys.get_int_max_str_digits()] as the interpreter starts (CPython 3.11
    and later): a longer numeral is refused. *)
Definition int_max_str_digits : nat := 4300.

(** The code points of a string, read from its UTF-8 bytes; [None] for
    bytes that are the UTF-8 of no string.  (A lone surrogate, which a Python
    string can hold, is read from its three bytes.) *)
Definition continuation (b : ascii) : option N :=
  let n := N_of_ascii b in
  if ((128 <=? n) && (n <=? 191))%N then Some (n - 128)%N else None.

Fixpoint code_points (s : string) : option (list N) :=
  match s with
  | EmptyString => Some []
  | String b0 r0 =>
      let n0 := N_of_ascii b0 in
      if (n0 <? 128)%N then option_map (cons n0) (code_points r0)
      else if (n0 <? 194)%N then None
      else if (n0 <? 224)%N then
        match r0 with
        | String b1 r1 =>
            match continuation b1 with
            | Some c1 =>
                option_map (cons ((n0 - 192) * 64 + c1)%N) (code_points r1)
            | None => None
            end
        | EmptyString => None
        end
      else if (n0 <? 240)%N then
        match r0 with
        | String b1 (String b2 r2) =>
            match continuation b1, continuation b2 with
            | Some c1, Some c2 =>
                let cp := ((n0 - 224) * 4096 + c1 * 64 + c2)%N in
                if (2048 <=? cp)%N then option_map (cons cp) (code_points r2)
                else None
            | _, _ => None
            end
        | _ => None
        end
      else if (n0 <? 245)%N then
        match r0 with
        | String b1 (String b2 (String b3 r3)) =>
            match continuation b1, continuation b2, continuation b3 with
            | Some c1, Some c2, Some c3 =>
                let cp := ((n0 - 240) * 262144 + c1 * 4096 + c2 * 64 + c3)%N in
                if ((65536 <=? cp) && (cp <=? 1114111))%N
                then option_map (cons cp) (code_points r3)
                else None
            | _, _, _ => None
            end
        | _ => None
        end
      else None
  end.

(** The code points of the digit zero of every decimal digit system of
    Unicode 14.0 (the database of CPython 3.11); the nine that follow each
    are its digits one to nine. *)
Definition unicode_zeros : list N :=
  [48; 1632; 1776; 1984; 2406; 2534; 2662; 2790;
   2918; 3046; 3174; 3302; 3430; 3558; 3664; 3792;
   3872; 4160; 4240; 6112; 6160; 6470; 6608; 6784;
   6800; 6992; 7088; 7232; 7248; 42528; 43216; 43264;
   43472; 43504; 43600; 44016; 65296; 66720; 68912; 69734;
   69872; 69942; 70096; 70384; 70736; 70864; 71248; 71360;
   71472; 71904; 72016; 72784; 73040; 73120; 92768; 92864;
   93008; 120782; 120792; 120802; 120812; 120822; 123200; 123632;
   125264; 130032]%N.

(** [Py_UNICODE_TODECIMAL] *)
Definition unicode_decimal (cp : N) : option N :=
  match find (fun z => (z <=? cp) && (cp <=? z + 9))%N unicode_zeros with
  | Some z => Some (cp - z)%N
  | None => None
  end.

(** [Py_UNICODE_ISSPACE] beyond ASCII *)
Definition unicode_space (cp : N) : bool :=
  ((cp =? 133) || (cp =? 160) || (cp =? 5760)
   || ((8192 <=? cp) && (cp <=? 8202))
   || (cp =? 8232) || (cp =? 8233) || (cp =? 8239) || (cp =? 8287)
   || (cp =? 12288))%N.

(** What [int()] makes of one character before it reads the numeral
    ([_PyUnicode_TransformDecimalAndSpaceToASCII]): an ASCII character
    stays, white space becomes a space, a decimal digit of any script
    becomes its ASCII digit, and any other character ends the reading with
    [ValueError] ([None]). *)
Definition to_ascii (cp : N) : option ascii :=
  if (cp <? 127)%N then Some (ascii_of_N cp)
  else if unicode_space cp then Some " "%char
  else match unicode_decimal cp with
       | Some d => Some (ascii_of_N (48 + d))
       | None => None
       end.

Fixpoint transform (cps : list N) : option string :=
  match cps with
  | [] => Some EmptyString
  | cp :: rest =>
      match to_ascii cp, transform rest with
      | Some c, Some s => Some (String c s)
      | _, _ => None
      end
  end.

(** The numeral of an ASCII string ([PyLong_FromString] in base 10). *)
Definition int_of_ascii (s : string) : option Z :=
  if (int_max_str_digits <? count_digits s)%nat then None
  else
    match strip s with
    | String "+" r => digits 0 false r
    | String "-" r => option_map Z.opp (digits 0 false r)
    | r => digits 0 false r
    end.

(** [int(s)]: [None] stands for [ValueError]. *)
Definition int (s : string) : option Z :=
  match code_points s with
  | Some cps =>
      match transform cps with
      | Some a => int_of_ascii a
      | None => None
      end
  | None => None
  end.

End PyStr.

(** ** Python lists *)

Module PyList.
Section Ops.
Context {A : Type}.

(** The position a subscript [l[k]] denotes: negative subscripts count
    from the end; [None] stands for [IndexError]. *)
Definition position (n : nat) (k : Z) : option nat :=
  if (k <? 0)%Z
  then if (- k <=? Z.of_nat n)%Z then Some (Z.to_nat (Z.of_nat n + k)) else None
  else if (k <? Z.of_nat n)%Z then Some (Z.to_nat k) else None.

(** [l[i] = v] at a position inside the list *)
Definition set_at (l : list A) (i : nat) (v : A) : list A :=
  firstn i l ++ v :: skipn (S i) l.

(** [del l[i]] at a position inside the list *)
Definition del_at (l : list A) (i : nat) : list A :=
  firstn i l ++ skipn (S i) l.

(** Where [l.insert(k, v)] puts [v]: a negative [k] counts from the end,
    and the result is clipped to [0 .. len(l)]. *)
Definition insert_position (n : nat) (k : Z) : nat :=
  if (k <? 0)%Z
  then Z.to_nat (Z.max 0 (Z.of_nat n + k))
  else Z.to_nat (Z.min k (Z.of_nat n)).

Definition insert_at (l : list A) (i : nat) (v : A) : list A :=
  firstn i l ++ v :: skipn i l.
End Ops.

(** [sys.maxsize] of a 64-bit interpreter: [list.insert] raises
    [OverflowError] on an index that does not fit a machine word. *)
Definition sys_maxsize : Z := 2 ^ 63 - 1.

Definition fits_ssize (k : Z) : bool :=
  ((- sys_maxsize - 1 <=? k) && (k <=? sys_maxsize))%Z.
End PyList.


(** ** Documents *)

(** The values [json.loads] produces. *)
Unset Elimination Schemes.
Inductive json : Type :=
| JNull
| JBool (b : bool)
| JNum (n : Z)
| JStr (s : string)
| JArray (l : list json)
| JObject (o : list (string * json)).
Set Elimination Schemes.

(** A [dict] with string keys, in insertion order. *)
Definition dict : Type := list (string * json).

(** [o[k]], [None] standing for [KeyError] *)
Fixpoint dict_get (o : dict) (k : string) : option json :=
  match o with
  | [] => None
  | (k', v) :: o' => if String.eqb k' k then Some v else dict_get o' k
  end.

(** [k in o] *)
Definition dict_mem (o : dict) (k : string) : bool :=
  match dict_get o k with Some _ => true | None => false end.

(** [o[k] = v]: a present key keeps its place, a new key goes last. *)
Fixpoint dict_set (o : dict) (k : string) (v : json) : dict :=
  match o with
  | [] => [(k, v)]
  | (k', v') :: o' =>
      if String.eqb k' k then (k', v) :: o' else (k', v') :: dict_set o' k v
  end.

(** [del o[k]] for a present key *)
Fixpoint dict_del (o : dict) (k : string) : dict :=
  match o with
  | [] => []
  | (k', v') :: o' =>
      if String.eqb k' k then o' else (k', v') :: dict_del o' k
  end.

(** [op.get(k)]: [None] when the key is absent. *)
Definition dict_get_or_none (o : dict) (k : string) : json :=
  match dict_get o k with Some v => v | None => JNull end.

(** [l[k]] on a list, [None] standing for [IndexError] *)
Definition subscript (l : list json) (k : Z) : option (nat * json) :=
  match PyList.position (List.length l) k with
  | Some i =>
      match nth_error l i with
      | Some v => Some (i, v)
      | None => None
      end
  | None => None
  end.

(** Python's [==] on documents: [True == 1] and [False == 0], lists compare
    element by element, dicts compare as maps (order does not count). *)
Fixpoint py_eq (a b : json) {struct a} : bool :=
  match a, b with
  | JNull, JNull => true
  | JBool x, JBool y => Bool.eqb x y
  | JBool x, JNum n => Z.eqb (if x then 1 else 0) n
  | JNum n, JBool y => Z.eqb n (if y then 1 else 0)
  | JNum n, JNum m => Z.eqb n m
  | JStr s, JStr t => String.eqb s t
  | JArray xs, JArray ys =>
      (fix all2 (xs ys : list json) {struct xs} : bool :=
         match xs, ys with
         | [], [] => true
         | x :: xs', y :: ys' => py_eq x y && all2 xs' ys'
         | _, _ => false
         end) xs ys
  | JObject o, JObject p =>
      Nat.eqb (List.length o) (List.length p) &&
      (fix all_in (o : list (string * json)) {struct o} : bool :=
         match o with
         | [] => true
         | (k, v) :: o' =>
             match dict_get p k with
             | Some w => py_eq v w
             | None => false
             end && all_in o'
         end) o
  | _, _ => false
  end.

(** What [json.loads] guarantees of a document: at every object the keys
    are distinct. *)
Fixpoint keys_unique (j : json) : Prop :=
  match j with
  | JArray l =>
      (fix all (l : list json) : Prop :=
         match l with
         | [] => True
         | x :: l' => keys_unique x /\ all l'
         end) l
  | JObject o =>
      NoDup (map fst o) /\
      (fix all (o : list (string * json)) : Prop :=
         match o with
         | [] => True
         | (_, v) :: o' => keys_unique v /\ all o'
         end) o
  | _ => True
  end.

(** ** Exceptions *)

(** The exceptions the tool raises, with what their messages carry.  The
    names of the specification are given where it has one. *)
Inductive exn : Type :=
| ValueError_pointer (ptr : string)
    (* "Invalid JSON Pointer (must start with '/')": MalformedPointer *)
| ValueError_int (t : string)
    (* raised by [int(t)] *)
| KeyError_dash
    (* "'-' is not valid for get operations": InvalidToken *)
| KeyError (k : string)
    (* a subscript or [del] on a dict without the key: NotFound *)
| IndexError
    (* a list subscript out of range: IndexOutOfRange *)
| OverflowError
    (* [list.insert] with an index beyond the machine word *)
| TypeError
    (* a subscript, [in] or [del] on a value that does not support it *)
| AttributeError
    (* [setdefault] or [get] on a value that is not a dict *)
| KeyError_add_exists (ptr : string)
    (* "Add target exists: ptr": TargetExists *)
| KeyError_replace_missing (ptr : string)
    (* "Replace target missing: ptr": NotFound *)
| KeyError_remove_root
    (* "Cannot remove document root": RootRemovalForbidden *)
| ValueError_missing_from (i : nat) (optype : json)
    (* "Patch[i] missing 'from' for optype": MalformedOperation *)
| ValueError_missing_path (i : nat)
    (* "Patch[i] missing valid 'path'": MalformedOperation *)
| AssertionError_test (i : nat) (path : string) (cur value : json)
    (* "Patch[i] test failed at path: cur != value": PatchAssertionFailed *)
| ValueError_unsupported (optype : json).
    (* "Unsupported op: optype" *)

(** The result of a function that only reads. *)
Inductive res (A : Type) : Type :=
| Ok (a : A)
| Raise (e : exn).
Arguments Ok {A} a.
Arguments Raise {A} e.

(** The result of a function that mutates the document it is given: what it
    returns, or the exception and the state it leaves that document in. *)
Inductive mres (A : Type) : Type :=
| Ret (a : A)
| Fail (e : exn) (doc : json).
Arguments Ret {A} a.
Arguments Fail {A} e doc.

(** ** JSON Pointer helpers (RFC 6901) *)

Definition _unescape_token (token : string) : string :=
  PyStr.replace "~0" "~" (PyStr.replace "~1" "/" token).

Definition _split_pointer (ptr : string) : res (list string) :=
  if String.eqb ptr "" || String.eqb ptr "/" then Ok []
  else if negb (PyStr.startswith "/" ptr) then Raise (ValueError_pointer ptr)
  else Ok (map _unescape_token (tl (PyStr.split "/" ptr))).

(** The loop of [pointer_get]. *)
Fixpoint get_loop (cur : json) (tokens : list string) : res json :=
  match tokens with
  | [] => Ok cur
  | t :: rest =>
      match cur with
      | JArray l =>
          if String.eqb t "-" then Raise KeyError_dash
          else match PyStr.int t with
               | None => Raise (ValueError_int t)
               | Some idx =>
                   match subscript l idx with
                   | None => Raise IndexError
                   | Some (_, child) => get_loop child rest
                   end
               end
      | JObject o =>
          match dict_get o t with
          | None => Raise (KeyError t)
          | Some child => get_loop child rest
          end
      | _ => Raise TypeError
      end
  end.

Definition pointer_get (doc : json) (pointer : string) : res json :=
  match _split_pointer pointer with
  | Raise e => Raise e
  | Ok tokens => get_loop doc tokens
  end.

(** A reference into the document, as [cur] is in [_ensure_parent]: the
    containers passed on the way down, outermost first, each with the key or
    position that was followed. *)
Inductive frame : Type :=
| InDict (o : dict) (k : string)
| InList (l : list json) (i : nat).

Definition plug1 (f : frame) (child : json) : json :=
  match f with
  | InDict o k => JObject (dict_set o k child)
  | InList l i => JArray (PyList.set_at l i child)
  end.

(** The document around a reference, given the value now at the reference. *)
Definition plug (ctx : list frame) (cur : json) : json :=
  fold_right plug1 cur ctx.

Definition under {A : Type} (f : frame) (r : mres (list frame * A))
  : mres (list frame * A) :=
  match r with
  | Ret (ctx, a) => Ret (f :: ctx, a)
  | Fail e child => Fail e (plug1 f child)
  end.

(** The loop of [_ensure_parent] over [tokens[:-1]]; [setdefault] puts an
    empty dict under an absent key. *)
Fixpoint ensure_loop (cur : json) (tokens : list string)
  : mres (list frame * json) :=
  match tokens with
  | [] => Ret ([], cur)
  | t :: rest =>
      match cur with
      | JArray l =>
          match PyStr.int t with
          | None => Fail (ValueError_int t) cur
          | Some idx =>
              match subscript l idx with
              | None => Fail IndexError cur
              | Some (i, child) => under (InList l i) (ensure_loop child rest)
              end
          end
      | JObject o =>
          match dict_get o t with
          | Some child => under (InDict o t) (ensure_loop child rest)
          | None =>
              under (InDict (dict_set o t (JObject [])) t)
                    (ensure_loop (JObject []) rest)
          end
      | _ => Fail AttributeError cur
      end
  end.

Definition _ensure_parent (doc : json) (tokens : list string)
  : mres (list frame * (json * string)) :=
  match ensure_loop doc (removelast tokens) with
  | Ret (ctx, cur) => Ret (ctx, (cur, last tokens ""))
  | Fail e d => Fail e d
  end.

Definition is_nil {A : Type} (l : list A) : bool :=
  match l with [] => true | _ => false end.

Definition pointer_add (doc : json) (pointer : string) (value : json)
  : mres json :=
  match _split_pointer pointer with
  | Raise e => Fail e doc
  | Ok tokens =>
      if is_nil tokens then Ret value
      else
        match _ensure_parent doc tokens with
        | Fail e d => Fail e d
        | Ret (ctx, (parent, last)) =>
            match parent with
            | JArray l =>
                if String.eqb last "-" then Ret (plug ctx (JArray (l ++ [value])))
                else
                  match PyStr.int last with
                  | None => Fail (ValueError_int last) (plug ctx parent)
                  | Some k =>
                      if PyList.fits_ssize k
                      then Ret (plug ctx (JArray
                             (PyList.insert_at l
                                (PyList.insert_position (List.length l) k) value)))
                      else Fail OverflowError (plug ctx parent)
                  end
            | JObject o =>
                if dict_mem o last
                then Fail (KeyError_add_exists pointer) (plug ctx parent)
                else Ret (plug ctx (JObject (dict_set o last value)))
            | JStr s =>
                if PyStr.contains last s
                then Fail (KeyError_add_exists pointer) (plug ctx parent)
                else Fail TypeError (plug ctx parent)
            | _ => Fail TypeError (plug ctx parent)
            end
        end
  end.

Definition pointer_replace (doc : json) (pointer : string) (value : json)
  : mres json :=
  match _split_pointer pointer with
  | Raise e => Fail e doc
  | Ok tokens =>
      if is_nil tokens then Ret value
      else
        match _ensure_parent doc tokens with
        | Fail e d => Fail e d
        | Ret (ctx, (parent, last)) =>
            match parent with
            | JArray l =>
                match PyStr.int last with
                | None => Fail (ValueError_int last) (plug ctx parent)
                | Some k =>
                    match subscript l k with
                    | None => Fail IndexError (plug ctx parent)
                    | Some (i, _) =>
                        Ret (plug ctx (JArray (PyList.set_at l i value)))
                    end
                end
            | JObject o =>
                if negb (dict_mem o last)
                then Fail (KeyError_replace_missing pointer) (plug ctx parent)
                else Ret (plug ctx (JObject (dict_set o last value)))
            | JStr s =>
                if negb (PyStr.contains last s)
                then Fail (KeyError_replace_missing pointer) (plug ctx parent)
                else Fail TypeError (plug ctx parent)
            | _ => Fail TypeError (plug ctx parent)
            end
        end
  end.

Definition pointer_remove (doc : json) (pointer : string) : mres json :=
  match _split_pointer pointer with
  | Raise e => Fail e doc
  | Ok tokens =>
      if is_nil tokens then Fail KeyError_remove_root doc
      else
        match _ensure_parent doc tokens with
        | Fail e d => Fail e d
        | Ret (ctx, (parent, last)) =>
            match parent with
            | JArray l =>
                match PyStr.int last with
                | None => Fail (ValueError_int last) (plug ctx parent)
                | Some k =>
                    match subscript l k with
                    | None => Fail IndexError (plug ctx parent)
                    | Some (i, _) => Ret (plug ctx (JArray (PyList.del_at l i)))
                    end
                end
            | JObject o =>
                if dict_mem o last
                then Ret (plug ctx (JObject (dict_del o last)))
                else Fail (KeyError last) (plug ctx parent)
            | _ => Fail TypeError (plug ctx parent)
            end
        end
  end.

(** ** JSON Patch (RFC 6902) *)

(** [optype == name], and so membership in a tuple of names: a value that
    is not a string equals none of them. *)
Definition is_op (optype : json) (name : string) : bool :=
  match optype with
  | JStr s => String.eqb s name
  | _ => false
  end.

(** [isinstance(v, str)] *)
Definition is_str (v : json) : bool :=
  match v with JStr _ => true | _ => false end.

(** [json.loads(json.dumps(val))]: a structural duplicate.  Without sharing
    in the model the duplicate is the value itself. *)
Definition deep_copy (val : json) : json := val.

(** One turn of the loop of [apply_patch], on the operation [op] at index
    [i]. *)
Definition apply_op (i : nat) (doc : json) (op : json) : mres json :=
  match op with
  | JObject fields =>
      let optype := dict_get_or_none fields "op" in
      let path := dict_get_or_none fields "path" in
      let value := dict_get_or_none fields "value" in
      let from_ptr := dict_get_or_none fields "from" in
      let missing_from := Fail (ValueError_missing_from i optype) doc in
      if (is_op optype "move" || is_op optype "copy") && negb (is_str from_ptr)
      then missing_from
      else
          match path with
          | JStr path =>
              if is_op optype "add" then pointer_add doc path value
              else if is_op optype "remove" then pointer_remove doc path
              else if is_op optype "replace" then pointer_replace doc path value
              else if is_op optype "move" then
                match from_ptr with
                | JStr from_ptr =>
                    match pointer_get doc from_ptr with
                    | Raise e => Fail e doc
                    | Ok val =>
                        match pointer_remove doc from_ptr with
                        | Fail e d => Fail e d
                        | Ret doc1 => pointer_add doc1 path val
                        end
                    end
                | _ => missing_from
                end
              else if is_op optype "copy" then
                match from_ptr with
                | JStr from_ptr =>
                    match pointer_get doc from_ptr with
                    | Raise e => Fail e doc
                    | Ok val => pointer_add doc path (deep_copy val)
                    end
                | _ => missing_from
                end
              else if is_op optype "test" then
                match pointer_get doc path with
                | Raise e => Fail e doc
                | Ok cur =>
                    if negb (py_eq cur value)
                    then Fail (AssertionError_test i path cur value) doc
                    else Ret doc
                end
              else Fail (ValueError_unsupported optype) doc
          | _ => Fail (ValueError_missing_path i) doc
          end
  | _ => Fail AttributeError doc
  end.

(** The loop of [apply_patch] from index [i] on. *)
Fixpoint apply_patch_from (i : nat) (doc : json) (patch : list json)
  : mres json :=
  match patch with
  | [] => Ret doc
  | op :: rest =>
      match apply_op i doc op with
      | Ret doc' => apply_patch_from (S i) doc' rest
      | Fail e d => Fail e d
      end
  end.

Definition apply_patch (doc : json) (patch : list json) : mres json :=
  apply_patch_from 0 doc patch.

(** ** The atomic writer *)

Module Store.

(** The files of the file system: the bytes at each path, [None] where no
    file is.  Only regular files are modelled and every call succeeds;
    directories are not modelled, so [os.makedirs] leaves no mark. *)
Definition files : Type := string -> option string.

Definition update (fs : files) (p : string) (c : option string) : files :=
  fun q => if String.eqb q p then c else fs q.

(** The calls [write_atomic] makes on the file system. *)
Inductive call : Type :=
| MkStemp (tmp : string)
    (* [tempfile.mkstemp]: creates the empty file [tmp] *)
| WriteFsync (tmp data : string)
    (* [tmp.write(data); tmp.flush(); os.fsync(...)] and the close *)
| Copy2 (src dst : string)
    (* [shutil.copy2(src, dst)] *)
| Replace (src dst : string).
    (* [os.replace(src, dst)] *)

Definition exec (c : call) (fs : files) : files :=
  match c with
  | MkStemp tmp => update fs tmp (Some "")
  | WriteFsync tmp data => update fs tmp (Some data)
  | Copy2 src dst => update fs dst (fs src)
  | Replace src dst => update (update fs dst (fs src)) src None
  end.

(** The files after a sequence of calls, first call first. *)
Definition replay (cs : list call) (fs : files) : files :=
  fold_left (fun s c => exec c s) cs fs.

(** The state [write_atomic] runs in: the files, and the calls made so far. *)
Record world : Type := World { fs_of : files; trace : list call }.

(** A computation on the world. *)
Definition io (A : Type) : Type := world -> A * world.

Definition ret {A : Type} (a : A) : io A := fun w => (a, w).

Definition bind {A B : Type} (m : io A) (k : A -> io B) : io B :=
  fun w => let (a, w') := m w in k a w'.

Notation "x <- m ;; k" := (bind m (fun x => k))
  (at level 61, m at next level, right associativity).
Notation "m ;; k" := (bind m (fun _ => k))
  (at level 61, right associativity).

Definition do_call (c : call) : io unit :=
  fun w => (tt, World (exec c (fs_of w)) (trace w ++ [c])).

(** [os.path.exists(path)] *)
Definition path_exists (p : string) : io bool :=
  fun w => (match fs_of w p with Some _ => true | None => false end, w).

(** [datetime.datetime.utcnow()], broken into its fields. *)
Record datetime : Type := Datetime {
  year : nat; month : nat; day : nat;
  hour : nat; minute : nat; second : nat
}.

Definition decimal (n : nat) : string :=
  NilEmpty.string_of_uint (Nat.to_uint n).

Fixpoint zeros (n : nat) : string :=
  match n with O => "" | S k => String "0" (zeros k) end.

(** A number in decimal, padded with zeros on the left to [width]. *)
Definition zfill (width n : nat) : string :=
  let d := decimal n in zeros (width - String.length d) ++ d.

(** [ts.strftime("%Y%m%dT%H%M%SZ")] *)
Definition strftime_compact (ts : datetime) : string :=
  zfill 4 (year ts) ++ zfill 2 (month ts) ++ zfill 2 (day ts) ++ "T" ++
  zfill 2 (hour ts) ++ zfill 2 (minute ts) ++ zfill 2 (second ts) ++ "Z".

Section WriteAtomic.

(** [json.dumps(obj, indent=2, ensure_ascii=False).encode("utf-8")] *)
Variable json_dumps : json -> string.
(** [sha256_bytes]: the hexadecimal SHA-256 digest *)
Variable sha256_bytes : string -> string.
(** The path [tempfile.mkstemp(prefix=".jsontmp-", dir=dirn)] picks, given
    the target path and the files present. *)
Variable mkstemp : string -> files -> string.
(** What the clock reads when [utcnow] is called. *)
Variable utcnow : datetime.

Definition bak_path_of (path new_hash : string) : string :=
  path ++ ".bak." ++ strftime_compact utcnow ++ "." ++ PyStr.take 8 new_hash.

Definition write_atomic (path : string) (obj : json) (make_backup : bool)
  : io (string * string) :=
  let data := json_dumps obj in
  let new_hash := sha256_bytes data in
  tmp_path <- (fun w => (mkstemp path (fs_of w), w)) ;;
  do_call (MkStemp tmp_path) ;;
  do_call (WriteFsync tmp_path data) ;;
  present <- path_exists path ;;
  (if make_backup && present
   then do_call (Copy2 path (bak_path_of path new_hash))
   else ret tt) ;;
  do_call (Replace tmp_path path) ;;
  ret (path, new_hash).

End WriteAtomic.

End Store.

(** ** Definitions that follow the specification's words *)

(** Unescaping as two independent substitutions in one pass over the raw
    token: each ["~1"] becomes ["/"] and each ["~0"] becomes ["~"], and what
    a substitution produced is not looked at again. *)
Fixpoint unescape_independent (raw : string) : string :=
  match raw with
  | EmptyString => EmptyString
  | String c rest =>
      match rest with
      | String d rest' =>
          if Ascii.eqb c "~" && Ascii.eqb d "1"
          then String "/" (unescape_independent rest')
          else if Ascii.eqb c "~" && Ascii.eqb d "0"
          then String "~" (unescape_independent rest')
          else String c (unescape_independent rest)
      | EmptyString => String c EmptyString
      end
  end.


(** The patch operations of the scenarios. *)
Definition op_add (path : string) (value : json) : json :=
  JObject [("op", JStr "add"); ("path", JStr path); ("value", value)].

Definition op_move (from path : string) : json :=
  JObject [("op", JStr "move"); ("from", JStr from); ("path", JStr path)].

(** ** Template insertion *)

(** [clone_layer]: [name] is [None] or a string; [if name] holds for a
    string that is not empty.  The clone is a duplicate, so naming it does
    not touch the document. *)
Definition clone_layer
  (doc : json) (source_pointer dest_pointer : string) (name : option string)
  : mres json :=
  match pointer_get doc source_pointer with
  | Raise e => Fail e doc
  | Ok layer =>
      let clone := deep_copy layer in
      let clone :=
        match name, clone with
        | Some n, JObject o =>
            if negb (String.eqb n "") then JObject (dict_set o "name" (JStr n))
            else clone
        | _, _ => clone
        end in
      pointer_add doc dest_pointer clone
  end.

(** ** The scripts that apply the repository's patches *)

(** What a [for] loop or [list.extend] draws from a value read with
    [json.loads]: the elements of a list, the keys of a dict, the characters
    of a string; the other values are not iterable ([TypeError]).  A string
    is taken to be ASCII here, one item per character. *)
Definition py_iter (v : json) : res (list json) :=
  match v with
  | JArray l => Ok l
  | JObject o => Ok (map (fun kv => JStr (fst kv)) o)
  | JStr s => Ok (map (fun c => JStr (String c EmptyString)) (list_ascii_of_string s))
  | _ => Raise TypeError
  end.

(** [apply_patch] on a patch as [json.loads] returned it, not checked to be
    a list: [enumerate(patch)] draws the operations. *)
Definition apply_patch_loaded (doc : json) (patch : json) : mres json :=
  match py_iter patch with
  | Ok ops => apply_patch doc ops
  | Raise e => Fail e doc
  end.

(** The loop of [main] in [apply_patches_in_order.py] over the contents of
    the patch files, in their order: [doc = apply_patch(doc, patch)]. *)
Fixpoint apply_patches_in_order (doc : json) (patches : list json)
  : mres json :=
  match patches with
  | [] => Ret doc
  | patch :: rest =>
      match apply_patch_loaded doc patch with
      | Ret doc' => apply_patches_in_order doc' rest
      | Fail e d => Fail e d
      end
  end.

(** The loop of [main] in [make_consolidated_patch.py] over the contents of
    the same files: [ops.extend(...)], from the accumulated [ops] on. *)
Fixpoint make_consolidated_patch (ops : list json) (patches : list json)
  : res (list json) :=
  match patches with
  | [] => Ok ops
  | patch :: rest =>
      match py_iter patch with
      | Ok more => make_consolidated_patch (ops ++ more) rest
      | Raise e => Raise e
      end
  end.

(** ** Updating a plan from a rendered template *)

(** [d.get(k, default)] on a dict *)
Definition dict_get_default (o : dict) (k : string) (default : json) : json :=
  match dict_get o k with Some v => v | None => default end.

Definition int_of_bool (b : bool) : Z := if b then 1%Z else 0%Z.

(** [a + b] on values read from JSON: lists and strings are joined,
    integers and booleans are added; [None] stands for [TypeError]. *)
Definition py_add (a b : json) : option json :=
  match a, b with
  | JArray x, JArray y => Some (JArray (x ++ y))
  | JStr x, JStr y => Some (JStr (x ++ y))
  | JNum x, JNum y => Some (JNum (x + y))
  | JNum x, JBool y => Some (JNum (x + int_of_bool y))
  | JBool x, JNum y => Some (JNum (int_of_bool x + y))
  | JBool x, JBool y => Some (JNum (int_of_bool x + int_of_bool y))
  | _, _ => None
  end.

(** The merge step of [ExtendedJSONPlanTool.update_plan_from_template]:
    from the plan read from disk and the pipeline rendered from the
    template (a dict) to the plan that is written.  [None] stands for an
    exception; the method catches it, prints it and returns [False] without
    writing.  ([existing_plan.copy()] exists on dicts and lists only; a
    list then fails at [merged_plan["layers"] = ...] or at [.get].) *)
Definition merge_plans
  (merge_strategy : string) (existing_plan : json) (rendered_pipeline : dict)
  : option json :=
  if String.eqb merge_strategy "replace" then Some (JObject rendered_pipeline)
  else if String.eqb merge_strategy "merge_layers" then
    match existing_plan with
    | JObject o =>
        let merged :=
          dict_set o "layers" (dict_get_default rendered_pipeline "layers" (JArray [])) in
        Some (JObject
                (match dict_get rendered_pipeline "orchestrator" with
                 | Some orchestrator => dict_set merged "orchestrator" orchestrator
                 | None => merged
                 end))
    | _ => None
    end
  else if String.eqb merge_strategy "append_layers" then
    match existing_plan with
    | JObject o =>
        let existing_layers := dict_get_default o "layers" (JArray []) in
        let new_layers := dict_get_default rendered_pipeline "layers" (JArray []) in
        match py_add existing_layers new_layers with
        | Some layers => Some (JObject (dict_set o "layers" layers))
        | None => None
        end
    | _ => None
    end
  else None.

(** An exception without the index of the operation that its message
    quotes ("Patch[i] ..."). *)
Definition forget_index (e : exn) : exn :=
  match e with
  | ValueError_missing_from _ optype => ValueError_missing_from 0 optype
  | ValueError_missing_path _ => ValueError_missing_path 0
  | AssertionError_test _ path cur value => AssertionError_test 0 path cur value
  | _ => e
  end.

(** Two runs end alike: with the same document, or with the same exception
    (but for the index it quotes) in the same document state. *)
Definition same_outcome (r1 r2 : mres json) : Prop :=
  match r1, r2 with
  | Ret d1, Ret d2 => d1 = d2
  | Fail e1 d1, Fail e2 d2 => forget_index e1 = forget_index e2 /\ d1 = d2
  | _, _ => False
  end.

(** A run ends in a document whose keys are distinct at every object,
    whether it returns or raises. *)
Definition ends_keys_unique (r : mres json) : Prop :=
  match r with
  | Ret d => keys_unique d
  | Fail _ d => keys_unique d
  end.

(** The container a reference passed has distinct keys. *)
Definition frame_keys_unique (f : frame) : Prop :=
  match f with
  | InDict o _ => keys_unique (JObject o)
  | InList l _ => keys_unique (JArray l)
  end.

(** [clone] is [layer] under the name [name]: the layer itself when no
    name, an empty name or a layer that is not an object is given;
    otherwise an object whose ["name"] is [name] and whose other members
    are those of the layer. *)
Definition named_clone (name : option string) (layer clone : json) : Prop :=
  match name, layer with
  | Some n, JObject o =>
      if String.eqb n "" then clone = layer
      else exists o', clone = JObject o'
                      /\ dict_get o' "name" = Some (JStr n)
                      /\ forall k, k <> "name" -> dict_get o' k = dict_get o k
  | _, _ => clone = layer
  end.

(** The calls of one [write_atomic], in their order; [backup] tells whether
    the copy to the backup path is among them. *)
Definition commit_calls (tmp data path bak : string) (backup : bool)
  : list Store.call :=
  [Store.MkStemp tmp; Store.WriteFsync tmp data]
    ++ (if backup then [Store.Copy2 path bak] else [])
    ++ [Store.Replace tmp path].

(** The values that [==] takes for equal, rule by rule: [True] and [False]
    are the integers [1] and [0]; lists are equal when they are as long as
    each other and equal element by element; dicts when they have as many
    members as each other and every member of the first has an equal value
    under its key in the second, whatever the order. *)
Unset Elimination Schemes.
Set Elimination Schemes.

(** ** Proof automation *)

(** The two directions of the test a list subscript makes, for a call that
    has reached [match PyStr.int t with ... subscript l idx ...]. *)
Ltac subscript_accepted_in H Hrange :=
  match type of H with
  | context [PyStr.int ?t] =>
      let idx := fresh "idx" in
      let Hint := fresh "Hint" in
      destruct (PyStr.int t) as [idx |] eqn:Hint; [| discriminate];
      apply (Hrange idx eq_refl);
      match type of H with
      | context [subscript ?l idx] =>
          destruct (subscript l idx) as [[? ?] |];
          [now eexists _, _ | discriminate]
      end
  end.

Ltac subscript_in_range Hint Hk Hrange :=
  match type of Hint with
  | PyStr.int _ = Some ?k =>
      let H := fresh "H" in
      let i := fresh "i" in
      let v := fresh "v" in
      rewrite Hint;
      match goal with
      | |- context [subscript ?l k] =>
          assert (H : exists i v, subscript l k = Some (i, v))
            by (apply (Hrange k Hint); now exists k);
          destruct H as (i & v & ->); now eexists
      end
  end.

(** The steps shared by the proofs that the three editing helpers keep the
    keys distinct; [parent_lemma] is the fact about [_ensure_parent] and
    [plug_lemma] the one about [plug]. *)
Ltac keys_unique_edit Hdoc parent_lemma :=
  match goal with
  | |- context [_split_pointer ?ptr] =>
      let tokens := fresh "tokens" in
      let ctx := fresh "ctx" in
      let parent := fresh "parent" in
      let last := fresh "last" in
      let H := fresh "H" in
      destruct (_split_pointer ptr) as [tokens | ?]; [| exact Hdoc];
      destruct (is_nil tokens); [try assumption |];
      pose proof (parent_lemma _ tokens Hdoc) as H;
      destruct (_ensure_parent _ tokens) as [[ctx [parent last]] | ? ?];
      [destruct H as [? ?]; destruct parent | exact H]
  end.

Ltac keys_unique_cases plug_lemma :=
  repeat match goal with
         | |- context [if ?c then _ else _] => destruct c
         | |- context [match PyStr.int ?t with _ => _ end] => destruct (PyStr.int t)
         | |- context [match subscript ?l ?k with _ => _ end] =>
             destruct (subscript l k) as [[? ?] |]
         end;
  cbn [ends_keys_unique];
  try (apply plug_lemma; [assumption |]).

(** * Properties *)

(** ** Token unescaping *)

Section Replace2.

(** [replace] with a pattern of two characters [a b]. *)
Variables (a b : ascii) (new : string).

Lemma replace2_nil : PyStr.replace (String a (String b "")) new "" = "".
Proof. reflexivity. Qed.

Lemma replace2_single (c : ascii) :
  PyStr.replace (String a (String b "")) new (String c "") = String c "".
Proof.
  unfold PyStr.replace. simpl.
  destruct (ascii_dec a c); reflexivity.
Qed.

Lemma replace2_hit (s : string) :
  PyStr.replace (String a (String b "")) new (String a (String b s))
  = (new ++ PyStr.replace (String a (String b "")) new s)%string.
Proof.
  assert (Hp : prefix (String a (String b "")) (String a (String b s)) = true).
  { cbn [prefix].
    destruct (ascii_dec a a) as [_ | n]; [| now destruct n].
    destruct (ascii_dec b b) as [_ | n]; [| now destruct n].
    now destruct s. }
  unfold PyStr.replace.
  cbn [PyStr.replace_from]. rewrite Hp. reflexivity.
Qed.

Lemma replace2_miss (c d : ascii) (s : string) :
  c <> a \/ d <> b ->
  PyStr.replace (String a (String b "")) new (String c (String d s))
  = String c (PyStr.replace (String a (String b "")) new (String d s)).
Proof.
  intros H. unfold PyStr.replace.
  cbn [PyStr.replace_from prefix].
  destruct (ascii_dec a c) as [-> | n]; [| reflexivity].
  destruct (ascii_dec b d) as [-> | n]; [| reflexivity].
  destruct H as [H | H]; now destruct H.
Qed.

Lemma replace2_other (c : ascii) (s : string) :
  c <> a ->
  PyStr.replace (String a (String b "")) new (String c s)
  = String c (PyStr.replace (String a (String b "")) new s).
Proof.
  intros H. destruct s as [| d s].
  - now rewrite replace2_single.
  - apply replace2_miss. now left.
Qed.

End Replace2.

(** The first pass never brings a ["0"] to the front of a token that did
    not start with one. *)
Lemma replace_slash_head (d : ascii) (s : string) :
  d <> "0"%char ->
  exists e r, PyStr.replace "~1" "/" (String d s) = String e r /\ e <> "0"%char.
Proof.
  intros Hd. destruct s as [| d' s].
  - rewrite replace2_single. now exists d, "".
  - destruct (ascii_dec d "~") as [-> | Hn].
    + destruct (ascii_dec d' "1") as [-> | Hn'].
      * rewrite replace2_hit. exists "/"%char. eexists. split; [reflexivity | discriminate].
      * rewrite replace2_miss by now right. eexists _, _. split; [reflexivity | assumption].
    + rewrite replace2_other by assumption. eexists _, _. split; [reflexivity | assumption].
Qed.

Lemma unescape_independent_bounded (n : nat) :
  forall token, (String.length token <= n)%nat ->
    _unescape_token token = unescape_independent token.
Proof.
  unfold _unescape_token.
  induction n as [| n IH]; intros token Hlen.
  - destruct token; [reflexivity | simpl in Hlen; lia].
  - destruct token as [| c [| d s]]; [reflexivity | |].
    + rewrite replace2_single, replace2_single. reflexivity.
    + cbn [String.length] in Hlen.
      cbn [unescape_independent].
      destruct (ascii_dec c "~") as [-> | Hc].
      * destruct (ascii_dec d "1") as [-> | Hd1].
        { rewrite replace2_hit. cbn [append].
          rewrite replace2_other by discriminate.
          rewrite IH by lia. reflexivity. }
        destruct (ascii_dec d "0") as [-> | Hd0].
        { rewrite replace2_miss by (right; discriminate).
          rewrite (replace2_other "~" "1" "/" "0") by discriminate.
          rewrite replace2_hit. cbn [append].
          rewrite IH by lia. reflexivity. }
        rewrite replace2_miss by now right.
        destruct (replace_slash_head d s Hd0) as (e & r & Hr & He).
        pose proof (IH (String d s)) as IHd. rewrite Hr in IHd |- *.
        rewrite replace2_miss by now right.
        rewrite IHd by (cbn [String.length]; lia).
        assert (Hb1 : Ascii.eqb d "1" = false) by now apply Ascii.eqb_neq.
        assert (Hb0 : Ascii.eqb d "0" = false) by now apply Ascii.eqb_neq.
        cbn [Ascii.eqb andb] in *.
        change (Ascii.eqb "~" "~") with true. cbn [andb].
        rewrite Hb1, Hb0. reflexivity.
      * rewrite replace2_other by assumption.
        rewrite replace2_other by assumption.
        rewrite IH by (cbn [String.length]; lia).
        assert (Hb : Ascii.eqb c "~" = false) by now apply Ascii.eqb_neq.
        rewrite Hb. reflexivity.
Qed.

(** C7.  On every raw token the chained replacement of the source,
    [token.replace("~1", "/").replace("~0", "~")], is the one-pass
    unescaping in which ["~1"] -> ["/"] and ["~0"] -> ["~"] are independent
    substitutions and no escape is processed twice; in particular ["~01"]
    unescapes to ["~1"]. *)
Theorem unescape_token_independent :
  (forall token, _unescape_token token = unescape_independent token)
  /\ _unescape_token "~01" = "~1".
Proof.
  split.
  - intros token. now apply (unescape_independent_bounded (String.length token)).
  - reflexivity.
Qed.

(** ** Containers *)

Lemma dict_get_set_same (o : dict) (k : string) (v : json) :
  dict_get (dict_set o k v) k = Some v.
Proof.
  induction o as [| [k' v'] o IH]; simpl.
  - now rewrite String.eqb_refl.
  - destruct (String.eqb k' k) eqn:E; simpl; rewrite E; [reflexivity | exact IH].
Qed.

Lemma dict_get_set_other (o : dict) (k k' : string) (v : json) :
  k <> k' -> dict_get (dict_set o k v) k' = dict_get o k'.
Proof.
  intros Hne. induction o as [| [k0 v0] o IH]; simpl.
  - apply String.eqb_neq in Hne. now rewrite Hne.
  - destruct (String.eqb k0 k) eqn:E; simpl.
    + apply String.eqb_eq in E. subst k0.
      apply String.eqb_neq in Hne. now rewrite Hne.
    + now rewrite IH.
Qed.

Lemma dict_set_set (o : dict) (k : string) (x y : json) :
  dict_set (dict_set o k x) k y = dict_set o k y.
Proof.
  induction o as [| [k' v'] o IH]; simpl.
  - now rewrite String.eqb_refl.
  - destruct (String.eqb k' k) eqn:E; simpl; rewrite E; [reflexivity | now rewrite IH].
Qed.

Lemma dict_set_get_id (o : dict) (k : string) (v : json) :
  dict_get o k = Some v -> dict_set o k v = o.
Proof.
  induction o as [| [k' v'] o IH]; simpl; [discriminate |].
  destruct (String.eqb k' k) eqn:E.
  - now intros [= ->].
  - intros H. now rewrite IH.
Qed.

Lemma dict_set_absent (o : dict) (k : string) (v : json) :
  dict_get o k = None -> dict_set o k v = o ++ [(k, v)].
Proof.
  induction o as [| [k' v'] o IH]; simpl; [reflexivity |].
  destruct (String.eqb k' k) eqn:E; [discriminate |].
  intros H. now rewrite IH.
Qed.

Lemma dict_get_app_absent (o : dict) (k k' : string) (v : json) :
  dict_get o k' = None ->
  dict_get (o ++ [(k, v)]) k' = if String.eqb k k' then Some v else None.
Proof.
  induction o as [| [k0 v0] o IH]; simpl; [reflexivity |].
  destruct (String.eqb k0 k'); [discriminate | exact IH].
Qed.

Lemma dict_get_del_other (o : dict) (k k' : string) :
  k <> k' -> dict_get (dict_del o k) k' = dict_get o k'.
Proof.
  intros Hne. induction o as [| [k0 v0] o IH]; simpl; [reflexivity |].
  destruct (String.eqb k0 k) eqn:E; simpl.
  - apply String.eqb_eq in E. subst k0.
    apply String.eqb_neq in Hne. now rewrite Hne.
  - now rewrite IH.
Qed.

Lemma dict_mem_get (o : dict) (k : string) :
  dict_mem o k = true <-> exists v, dict_get o k = Some v.
Proof.
  unfold dict_mem. destruct (dict_get o k).
  - split; [now eexists | reflexivity].
  - split; [discriminate | now intros [v H]].
Qed.

Lemma position_lt (n : nat) (k : Z) (i : nat) :
  PyList.position n k = Some i -> (i < n)%nat.
Proof.
  unfold PyList.position.
  destruct (k <? 0)%Z eqn:E1.
  - destruct (- k <=? Z.of_nat n)%Z eqn:E2; [| discriminate].
    intros [= <-]. lia.
  - destruct (k <? Z.of_nat n)%Z eqn:E2; [| discriminate].
    intros [= <-]. lia.
Qed.

(** A subscript is accepted exactly on [-n <= k < n]. *)
Lemma position_some_iff (n : nat) (k : Z) :
  (exists i, PyList.position n k = Some i)
  <-> (- Z.of_nat n <= k < Z.of_nat n)%Z.
Proof.
  unfold PyList.position.
  destruct (k <? 0)%Z eqn:E1.
  - destruct (- k <=? Z.of_nat n)%Z eqn:E2.
    + split; [lia | now eexists].
    + split; [now intros [i H] | lia].
  - destruct (k <? Z.of_nat n)%Z eqn:E2.
    + split; [lia | now eexists].
    + split; [now intros [i H] | lia].
Qed.

Section ListUpdate.
Context {A : Type}.

Lemma length_set_at (l : list A) (i : nat) (v : A) :
  (i < List.length l)%nat -> List.length (PyList.set_at l i v) = List.length l.
Proof.
  intros H. unfold PyList.set_at.
  rewrite length_app. cbn [List.length].
  rewrite length_firstn, length_skipn. lia.
Qed.

Lemma nth_error_set_at (l : list A) (i : nat) (v : A) :
  (i < List.length l)%nat -> nth_error (PyList.set_at l i v) i = Some v.
Proof.
  intros H. unfold PyList.set_at.
  rewrite nth_error_app2; rewrite length_firstn; [| lia].
  replace (i - Nat.min i (List.length l))%nat with 0%nat by lia.
  reflexivity.
Qed.

Lemma set_at_nth_id (l : list A) (i : nat) (v : A) :
  nth_error l i = Some v -> PyList.set_at l i v = l.
Proof.
  revert i. induction l as [| x l IH]; intros [| i]; simpl; try discriminate.
  - now intros [= ->].
  - intros H. unfold PyList.set_at in *. simpl. f_equal. now apply IH.
Qed.

End ListUpdate.

Lemma subscript_some (l : list json) (k : Z) :
  (exists i v, subscript l k = Some (i, v))
  <-> (- Z.of_nat (List.length l) <= k < Z.of_nat (List.length l))%Z.
Proof.
  rewrite <- position_some_iff. unfold subscript. split.
  - intros (i & v & H). destruct (PyList.position _ k); [now eexists | discriminate].
  - intros (i & H). rewrite H.
    destruct (nth_error l i) eqn:E.
    + now eexists _, _.
    + apply position_lt in H. apply nth_error_None in E. lia.
Qed.

Lemma subscript_set_at (l : list json) (k : Z) (i : nat) (x v : json) :
  subscript l k = Some (i, x) ->
  subscript (PyList.set_at l i v) k = Some (i, v).
Proof.
  unfold subscript.
  destruct (PyList.position (List.length l) k) as [j |] eqn:Hp; [| discriminate].
  destruct (nth_error l j) eqn:Hn; [| discriminate].
  intros [= -> ->].
  pose proof (position_lt _ _ _ Hp) as Hlt.
  rewrite length_set_at by assumption. rewrite Hp.
  now rewrite nth_error_set_at.
Qed.

Lemma subscript_nth (l : list json) (k : Z) (i : nat) (x : json) :
  subscript l k = Some (i, x) -> nth_error l i = Some x.
Proof.
  unfold subscript.
  destruct (PyList.position (List.length l) k) as [j |]; [| discriminate].
  destruct (nth_error l j) eqn:Hn; [| discriminate].
  now intros [= <- <-].
Qed.

Lemma int_not_dash (t : string) (k : Z) :
  PyStr.int t = Some k -> String.eqb t "-" = false.
Proof.
  intros H. destruct (String.eqb t "-") eqn:E; [| reflexivity].
  apply String.eqb_eq in E. subst t. discriminate.
Qed.

(** ** Walking a document *)

Lemma plug_cons (f : frame) (ctx : list frame) (x : json) :
  plug (f :: ctx) x = plug1 f (plug ctx x).
Proof. reflexivity. Qed.

Lemma get_loop_app (cur : json) (pre rest : list string) :
  get_loop cur (pre ++ rest)
  = match get_loop cur pre with
    | Ok p => get_loop p rest
    | Raise e => Raise e
    end.
Proof.
  revert cur. induction pre as [| t pre IH]; intros cur; [reflexivity |].
  cbn [app get_loop].
  destruct cur as [| | | | l | o]; try reflexivity.
  - destruct (String.eqb t "-"); [reflexivity |].
    destruct (PyStr.int t) as [idx |]; [| reflexivity].
    destruct (subscript l idx) as [[i child] |]; [apply IH | reflexivity].
  - destruct (dict_get o t) as [child |]; [apply IH | reflexivity].
Qed.

(** Where [pointer_get] finds a value, [_ensure_parent] reaches the same
    value and inserts nothing on the way. *)
Lemma get_loop_ensure_loop (cur : json) (pre : list string) (p : json) :
  get_loop cur pre = Ok p ->
  exists ctx, ensure_loop cur pre = Ret (ctx, p) /\ plug ctx p = cur.
Proof.
  revert cur. induction pre as [| t pre IH]; intros cur.
  - intros [= ->]. now exists [].
  - cbn [get_loop ensure_loop].
    destruct cur as [| | | | l | o]; try discriminate.
    + destruct (String.eqb t "-"); [discriminate |].
      destruct (PyStr.int t) as [idx |]; [| discriminate].
      destruct (subscript l idx) as [[i child] |] eqn:Hs; [| discriminate].
      intros H. destruct (IH _ H) as (ctx & -> & Hplug).
      exists (InList l i :: ctx). split; [reflexivity |].
      rewrite plug_cons, Hplug. cbn [plug1].
      f_equal. apply set_at_nth_id. eapply subscript_nth; eassumption.
    + destruct (dict_get o t) as [child |] eqn:Hg; [| discriminate].
      intros H. destruct (IH _ H) as (ctx & -> & Hplug).
      exists (InDict o t :: ctx). split; [reflexivity |].
      rewrite plug_cons, Hplug. cbn [plug1].
      f_equal. now apply dict_set_get_id.
Qed.

(** After [_ensure_parent] has walked [pre], the same tokens lead
    [pointer_get] to whatever now sits at the place it reached. *)
Lemma get_loop_plug (cur : json) (pre : list string) (ctx : list frame) (p : json) :
  ensure_loop cur pre = Ret (ctx, p) ->
  forall (x : json) (rest : list string),
    get_loop (plug ctx x) (pre ++ rest) = get_loop x rest.
Proof.
  revert cur ctx. induction pre as [| t pre IH]; intros cur ctx.
  - intros [= <- _] x rest. reflexivity.
  - cbn [ensure_loop].
    destruct cur as [| | | | l | o]; try discriminate.
    + destruct (PyStr.int t) as [idx |] eqn:Hint; [| discriminate].
      destruct (subscript l idx) as [[i child] |] eqn:Hs; [| discriminate].
      destruct (ensure_loop child pre) as [[ctx' p'] |] eqn:He; [| discriminate].
      intros [= <- <-] x rest.
      rewrite plug_cons. cbn [plug1 app get_loop].
      rewrite (int_not_dash _ _ Hint), Hint.
      rewrite (subscript_set_at _ _ _ _ _ Hs).
      now apply (IH _ _ He).
    + destruct (dict_get o t) as [child |] eqn:Hg.
      * destruct (ensure_loop child pre) as [[ctx' p'] |] eqn:He; [| discriminate].
        intros [= <- <-] x rest.
        rewrite plug_cons. cbn [plug1 app get_loop].
        rewrite dict_get_set_same. now apply (IH _ _ He).
      * destruct (ensure_loop (JObject []) pre) as [[ctx' p'] |] eqn:He; [| discriminate].
        intros [= <- <-] x rest.
        rewrite plug_cons. cbn [plug1 app get_loop].
        rewrite dict_get_set_same. now apply (IH _ _ He).
Qed.

Lemma tokens_snoc (tokens : list string) :
  is_nil tokens = false ->
  tokens = removelast tokens ++ [last tokens ""].
Proof.
  intros H. apply app_removelast_last. now destruct tokens.
Qed.

Lemma removelast_snoc (pre : list string) (t : string) :
  removelast (pre ++ [t]) = pre /\ last (pre ++ [t]) "" = t.
Proof.
  split; [apply removelast_last | apply last_last].
Qed.

Lemma ensure_parent_snoc (doc : json) (pre : list string) (t : string) :
  _ensure_parent doc (pre ++ [t])
  = match ensure_loop doc pre with
    | Ret (ctx, cur) => Ret (ctx, (cur, t))
    | Fail e d => Fail e d
    end.
Proof.
  unfold _ensure_parent.
  destruct (removelast_snoc pre t) as [-> ->]. reflexivity.
Qed.

(** ** Replace, then get *)

(** C8.  For every document [d], value [v] and pointer [p] that resolves in
    [d] (so [p] is a valid pointer), [pointer_replace d p v] succeeds and
    [pointer_get] on its result at [p] gives [v]. *)
Theorem get_after_replace (d : json) (p : string) (v cur : json) :
  pointer_get d p = Ok cur ->
  exists d', pointer_replace d p v = Ret d' /\ pointer_get d' p = Ok v.
Proof.
  unfold pointer_get, pointer_replace.
  destruct (_split_pointer p) as [tokens | e]; [| discriminate].
  destruct (is_nil tokens) eqn:Hnil.
  - intros _. exists v. split; [reflexivity |].
    destruct tokens; [reflexivity | discriminate].
  - rewrite (tokens_snoc tokens Hnil).
    set (pre := removelast tokens). set (t := last tokens "").
    rewrite get_loop_app, ensure_parent_snoc.
    destruct (get_loop d pre) as [parent | e] eqn:Hpre; [| discriminate].
    destruct (get_loop_ensure_loop _ _ _ Hpre) as (ctx & Hens & _).
    rewrite Hens. cbn [get_loop].
    destruct parent as [| | | | l | o]; try discriminate.
    + destruct (String.eqb t "-") eqn:Hdash; [discriminate |].
      destruct (PyStr.int t) as [idx |] eqn:Hint; [| discriminate].
      destruct (subscript l idx) as [[i child] |] eqn:Hs; [| discriminate].
      intros _. eexists. split; [reflexivity |].
      rewrite (get_loop_plug _ _ _ _ Hens). cbn [get_loop].
      rewrite Hdash, Hint, (subscript_set_at _ _ _ _ _ Hs). reflexivity.
    + destruct (dict_get o t) as [child |] eqn:Hg; [| discriminate].
      intros _. unfold dict_mem. rewrite Hg. cbn [negb].
      eexists. split; [reflexivity |].
      rewrite (get_loop_plug _ _ _ _ Hens). cbn [get_loop].
      now rewrite dict_get_set_same.
Qed.

Lemma get_after_replace_witness :
  let d := JObject [("x", JArray [JNum 1; JNum 2; JNum 3])] in
  pointer_get d "/x/1" = Ok (JNum 2)
  /\ exists d', pointer_replace d "/x/1" (JStr "v") = Ret d'
                /\ pointer_get d' "/x/1" = Ok (JStr "v").
Proof.
  split; [reflexivity |].
  apply (get_after_replace _ "/x/1" (JStr "v") (JNum 2)). reflexivity.
Defined.

(** ** Adding *)

Lemma is_nil_snoc (pre : list string) (t : string) : is_nil (pre ++ [t]) = false.
Proof. now destruct pre. Qed.

(** C5.  When the parent that [pointer_add] resolves is an object that
    already has the final key, the call raises [KeyError("Add target
    exists: ...")] (TargetExists) and stores nothing; so the patch
    [[{"op":"add","path":"/a","value":2}]] fails in this way on the
    document [{"a":1}]. *)
Theorem add_existing_key_fails :
  (forall (doc : json) (ptr : string) (tokens : list string)
          (ctx : list frame) (o : dict) (last : string) (value : json),
      _split_pointer ptr = Ok tokens ->
      is_nil tokens = false ->
      _ensure_parent doc tokens = Ret (ctx, (JObject o, last)) ->
      dict_mem o last = true ->
      pointer_add doc ptr value
      = Fail (KeyError_add_exists ptr) (plug ctx (JObject o)))
  /\ apply_patch (JObject [("a", JNum 1)]) [op_add "/a" (JNum 2)]
     = Fail (KeyError_add_exists "/a") (JObject [("a", JNum 1)]).
Proof.
  split; [| reflexivity].
  intros doc ptr tokens ctx o last value Hsplit Hnil Hens Hmem.
  unfold pointer_add. now rewrite Hsplit, Hnil, Hens, Hmem.
Qed.

Lemma add_existing_key_fails_witness :
  pointer_add (JObject [("a", JObject [("b", JNum 1)])]) "/a/b" (JNum 2)
  = Fail (KeyError_add_exists "/a/b")
         (plug [InDict [("a", JObject [("b", JNum 1)])] "a"]
               (JObject [("b", JNum 1)])).
Proof.
  apply (proj1 add_existing_key_fails
           (JObject [("a", JObject [("b", JNum 1)])]) "/a/b" ["a"; "b"]
           [InDict [("a", JObject [("b", JNum 1)])] "a"]
           [("b", JNum 1)] "b" (JNum 2));
    reflexivity.
Defined.

(** C3, refuted as stated: on the array [[1, 2, 3]] (length 3) the index
    token ["7"] lies outside [0 .. 3], yet [pointer_add] raises nothing and
    appends the value. *)
Lemma add_array_index_beyond_length :
  PyStr.int "7" = Some 7%Z
  /\ pointer_add (JArray [JNum 1; JNum 2; JNum 3]) "/7" (JNum 9)
     = Ret (JArray [JNum 1; JNum 2; JNum 3; JNum 9]).
Proof. split; reflexivity. Qed.

(** C3, amended.  For an array parent of length [n] and a final token that
    [int()] reads as [k] (within the machine word), [pointer_add] always
    succeeds and inserts the value, shifting the elements from that
    position on to the right: at position [k] when [0 <= k <= n], at the
    end when [n < k], and at position [max(0, n + k)] when [k < 0].  No
    index makes it fail with [IndexError]. *)
Theorem add_into_array
  (doc : json) (ptr : string) (tokens : list string) (ctx : list frame)
  (l : list json) (last : string) (k : Z) (value : json) :
  _split_pointer ptr = Ok tokens ->
  is_nil tokens = false ->
  _ensure_parent doc tokens = Ret (ctx, (JArray l, last)) ->
  PyStr.int last = Some k ->
  PyList.fits_ssize k = true ->
  let n := Z.of_nat (List.length l) in
  exists pos : nat,
    pointer_add doc ptr value
    = Ret (plug ctx (JArray (firstn pos l ++ value :: skipn pos l)))
    /\ ((0 <= k <= n)%Z -> pos = Z.to_nat k)
    /\ ((n < k)%Z -> pos = List.length l)
    /\ ((k < 0)%Z -> pos = Z.to_nat (Z.max 0 (n + k))).
Proof.
  intros Hsplit Hnil Hens Hint Hfit n.
  exists (PyList.insert_position (List.length l) k). split.
  - unfold pointer_add.
    rewrite Hsplit, Hnil, Hens, (int_not_dash _ _ Hint), Hint, Hfit.
    reflexivity.
  - unfold PyList.insert_position. subst n.
    destruct (k <? 0)%Z eqn:E; repeat split; intros; lia.
Qed.

Lemma add_into_array_witness :
  exists pos : nat,
    pointer_add (JObject [("x", JArray [JNum 1; JNum 2; JNum 3])]) "/x/-1" (JNum 9)
    = Ret (plug [InDict [("x", JArray [JNum 1; JNum 2; JNum 3])] "x"]
             (JArray (firstn pos [JNum 1; JNum 2; JNum 3]
                      ++ JNum 9 :: skipn pos [JNum 1; JNum 2; JNum 3])))
    /\ ((0 <= -1 <= 3)%Z -> pos = Z.to_nat (-1))
    /\ ((3 < -1)%Z -> pos = 3%nat)
    /\ ((-1 < 0)%Z -> pos = Z.to_nat (Z.max 0 (3 + -1))).
Proof.
  apply (add_into_array
           (JObject [("x", JArray [JNum 1; JNum 2; JNum 3])]) "/x/-1"
           ["x"; "-1"] [InDict [("x", JArray [JNum 1; JNum 2; JNum 3])] "x"]
           [JNum 1; JNum 2; JNum 3] "-1" (-1)%Z (JNum 9)); reflexivity.
Defined.

(** ** Array subscripts in get, remove and replace *)

(** C4, refuted as stated: ["-1"] is no non-negative integer, yet
    [pointer_get] accepts it on an array and returns the last element. *)
Lemma get_negative_index_accepted :
  PyStr.int "-1" = Some (-1)%Z
  /\ pointer_get (JArray [JNum 1; JNum 2; JNum 3]) "/-1" = Ok (JNum 3).
Proof. split; reflexivity. Qed.

Lemma subscript_in_range_position (l : list json) (k : Z) :
  (- Z.of_nat (List.length l) <= k < Z.of_nat (List.length l))%Z ->
  exists v,
    subscript l k
    = Some (Z.to_nat (if (k <? 0)%Z then Z.of_nat (List.length l) + k else k), v).
Proof.
  intros Hk. destruct (proj2 (subscript_some l k) Hk) as (i & v & H).
  exists v. rewrite H. unfold subscript, PyList.position in H.
  destruct (k <? 0)%Z.
  - destruct (- k <=? Z.of_nat (List.length l))%Z; [| discriminate].
    destruct (nth_error l _); [| discriminate]. now injection H as <- _.
  - destruct (k <? Z.of_nat (List.length l))%Z; [| discriminate].
    destruct (nth_error l _); [| discriminate]. now injection H as <- _.
Qed.

(** C4, amended.  When the tokens before the last resolve to an array of
    length [n], each of [pointer_get], [pointer_remove] and
    [pointer_replace] succeeds exactly when [int()] reads the last token as
    an integer [k] with [-n <= k < n]; every other token is rejected with
    an exception.  A negative [k] addresses the element at [n + k]: with
    [pos] standing for [n + k] when [k] is negative and for [k] otherwise,
    [pointer_get] returns the element at [pos], [pointer_remove] returns
    the document with the element at [pos] taken out of that array, and
    [pointer_replace] the document with the element at [pos] exchanged for
    the new value; the array sits where the tokens before the last lead,
    and nothing else of the document changes. *)
Theorem array_subscript_accepted
  (doc : json) (ptr : string) (pre : list string) (t : string) (l : list json) :
  _split_pointer ptr = Ok (pre ++ [t]) ->
  get_loop doc pre = Ok (JArray l) ->
  let n := Z.of_nat (List.length l) in
  let in_range := exists k, PyStr.int t = Some k /\ (- n <= k < n)%Z in
  ((exists v, pointer_get doc ptr = Ok v) <-> in_range)
  /\ ((exists d, pointer_remove doc ptr = Ret d) <-> in_range)
  /\ (forall value, (exists d, pointer_replace doc ptr value = Ret d) <-> in_range)
  /\ (forall k v, PyStr.int t = Some k -> pointer_get doc ptr = Ok v ->
        nth_error l (Z.to_nat (if (k <? 0)%Z then n + k else k)) = Some v)
  /\ (exists ctx,
        ensure_loop doc pre = Ret (ctx, JArray l)
        /\ plug ctx (JArray l) = doc
        /\ (forall x, get_loop (plug ctx x) pre = Ok x)
        /\ forall k, PyStr.int t = Some k -> (- n <= k < n)%Z ->
             let pos := Z.to_nat (if (k <? 0)%Z then n + k else k) in
             pointer_remove doc ptr
             = Ret (plug ctx (JArray (firstn pos l ++ skipn (S pos) l)))
             /\ forall value,
                  pointer_replace doc ptr value
                  = Ret (plug ctx (JArray (firstn pos l ++ value :: skipn (S pos) l)))).
Proof.
  intros Hsplit Hpre n in_range.
  destruct (get_loop_ensure_loop _ _ _ Hpre) as (ctx & Hens & Hplug).
  assert (Hget : pointer_get doc ptr
                 = if String.eqb t "-" then Raise KeyError_dash
                   else match PyStr.int t with
                        | None => Raise (ValueError_int t)
                        | Some idx =>
                            match subscript l idx with
                            | None => Raise IndexError
                            | Some (_, child) => Ok child
                            end
                        end).
  { unfold pointer_get. rewrite Hsplit, get_loop_app, Hpre. cbn [get_loop].
    destruct (String.eqb t "-"); [reflexivity |].
    destruct (PyStr.int t); [| reflexivity].
    now destruct (subscript l z) as [[i child] |]. }
  assert (Hrange : forall idx, PyStr.int t = Some idx ->
            (exists i v, subscript l idx = Some (i, v)) <-> in_range).
  { intros idx Hint. rewrite subscript_some. unfold in_range. fold n. split.
    - intros H. now exists idx.
    - intros (k & Hk & H). congruence. }
  unfold pointer_remove, pointer_replace.
  rewrite Hsplit, is_nil_snoc, ensure_parent_snoc, Hens.
  split; [| split; [| split; [| split]]].
  - split.
    + intros [v Hv]. rewrite Hget in Hv.
      destruct (String.eqb t "-"); [discriminate |].
      subscript_accepted_in Hv Hrange.
    + intros (k & Hint & Hk). rewrite Hget, (int_not_dash _ _ Hint).
      subscript_in_range Hint Hk Hrange.
  - split.
    + intros [d Hd]. subscript_accepted_in Hd Hrange.
    + intros (k & Hint & Hk). subscript_in_range Hint Hk Hrange.
  - intros value. split.
    + intros [d Hd]. subscript_accepted_in Hd Hrange.
    + intros (k & Hint & Hk). subscript_in_range Hint Hk Hrange.
  - intros k v Hint Hv. rewrite Hget, (int_not_dash _ _ Hint), Hint in Hv.
    unfold subscript, PyList.position in Hv. fold n in Hv.
    destruct (k <? 0)%Z.
    + destruct (- k <=? n)%Z; [| discriminate].
      destruct (nth_error l (Z.to_nat (n + k))) eqn:E; [| discriminate].
      congruence.
    + destruct (k <? n)%Z; [| discriminate].
      destruct (nth_error l (Z.to_nat k)) eqn:E; [| discriminate].
      congruence.
  - exists ctx. split; [reflexivity |]. split; [exact Hplug |]. split.
    + intros x. rewrite <- (app_nil_r pre) at 1.
      now rewrite (get_loop_plug _ _ _ _ Hens).
    + intros k Hint Hk. rewrite Hint.
      destruct (subscript_in_range_position l k Hk) as [v Hv].
      fold n in Hv. rewrite Hv. now split.
Qed.

Lemma array_subscript_accepted_witness :
  let doc := JObject [("x", JArray [JNum 1; JNum 2; JNum 3])] in
  _split_pointer "/x/-1" = Ok (["x"] ++ ["-1"])
  /\ get_loop doc ["x"] = Ok (JArray [JNum 1; JNum 2; JNum 3])
  /\ ((exists v, pointer_get doc "/x/-1" = Ok v)
      <-> exists k, PyStr.int "-1" = Some k /\ (- 3 <= k < 3)%Z)
  /\ pointer_remove doc "/x/-1" = Ret (JObject [("x", JArray [JNum 1; JNum 2])])
  /\ pointer_replace doc "/x/-1" (JNum 9)
     = Ret (JObject [("x", JArray [JNum 1; JNum 2; JNum 9])]).
Proof.
  split; [reflexivity |]. split; [reflexivity |].
  destruct (array_subscript_accepted
              (JObject [("x", JArray [JNum 1; JNum 2; JNum 3])])
              "/x/-1" ["x"] "-1" [JNum 1; JNum 2; JNum 3]
              eq_refl eq_refl)
    as (Hget & _ & _ & _ & ctx & Hens & _ & _ & Hedit).
  split; [exact Hget |].
  cbv in Hens. injection Hens as <-.
  assert (Hk : (- 3 <= -1 < 3)%Z) by lia.
  destruct (Hedit (-1)%Z eq_refl Hk) as [Hremove Hreplace].
  split; [exact Hremove | exact (Hreplace (JNum 9))].
Defined.

(** ** The patch applier *)

Lemma dict_get_app (o p : dict) (k : string) :
  dict_get (o ++ p) k
  = match dict_get o k with Some v => Some v | None => dict_get p k end.
Proof.
  induction o as [| [k' v'] o IH]; simpl; [reflexivity |].
  now destruct (String.eqb k' k).
Qed.

(** [op.get] does not tell an absent ["value"] from a [null] one. *)
Lemma get_or_none_value_absent (fields : dict) (k : string) :
  dict_get fields "value" = None ->
  dict_get_or_none (fields ++ [("value", JNull)]) k = dict_get_or_none fields k.
Proof.
  intros H. unfold dict_get_or_none. rewrite dict_get_app.
  destruct (dict_get fields k) eqn:E; [reflexivity |].
  cbn [dict_get]. now destruct (String.eqb "value" k).
Qed.

Lemma apply_op_value_absent (i : nat) (doc : json) (fields : dict) :
  dict_get fields "value" = None ->
  apply_op i doc (JObject fields)
  = apply_op i doc (JObject (fields ++ [("value", JNull)])).
Proof.
  intros H. unfold apply_op.
  now rewrite !(get_or_none_value_absent fields _ H).
Qed.

Lemma apply_patch_from_value_absent
  (pre post : list json) (fields : dict) :
  dict_get fields "value" = None ->
  forall (i : nat) (doc : json),
    apply_patch_from i doc (pre ++ JObject fields :: post)
    = apply_patch_from i doc (pre ++ JObject (fields ++ [("value", JNull)]) :: post).
Proof.
  intros H. induction pre as [| op pre IH]; intros i doc.
  - cbn [app apply_patch_from]. now rewrite (apply_op_value_absent i doc fields H).
  - cbn [app apply_patch_from].
    destruct (apply_op i doc op); [apply IH | reflexivity].
Qed.

(** C1, refuted as stated: the patch [[{"op":"add","path":"/a"}]] has an
    [add] without a value field, yet on the document [{}] [apply_patch]
    raises nothing and returns the changed document [{"a": null}]. *)
Lemma apply_add_without_value :
  let op := [("op", JStr "add"); ("path", JStr "/a")] in
  dict_get op "value" = None
  /\ apply_patch (JObject []) [JObject op] = Ret (JObject [("a", JNull)])
  /\ JObject [("a", JNull)] <> JObject [].
Proof.
  cbv zeta. split; [reflexivity |]. split; [reflexivity | discriminate].
Qed.

(** C1, amended.  [apply_patch] makes no structural check of the patch and
    never rejects an operation for a value field it lacks: an operation
    without a value field is executed, in its turn, exactly as the same
    operation carrying ["value": null], so a patch containing it behaves as
    the patch in which the field is written out as [null]. *)
Theorem missing_value_is_null
  (doc : json) (pre post : list json) (fields : dict) :
  dict_get fields "value" = None ->
  apply_patch doc (pre ++ JObject fields :: post)
  = apply_patch doc (pre ++ JObject (fields ++ [("value", JNull)]) :: post).
Proof.
  intros H. unfold apply_patch. now apply apply_patch_from_value_absent.
Qed.

Lemma missing_value_is_null_witness :
  apply_patch (JObject [("a", JNum 1)])
    ([op_add "/x" (JNum 1)]
     ++ JObject [("op", JStr "replace"); ("path", JStr "/a")] :: [])
  = apply_patch (JObject [("a", JNum 1)])
    ([op_add "/x" (JNum 1)]
     ++ JObject ([("op", JStr "replace"); ("path", JStr "/a")]
                 ++ [("value", JNull)]) :: []).
Proof.
  apply (missing_value_is_null (JObject [("a", JNum 1)]) [op_add "/x" (JNum 1)] []
           [("op", JStr "replace"); ("path", JStr "/a")]).
  reflexivity.
Defined.

Lemma apply_op_move (i : nat) (doc : json) (from path : string) :
  apply_op i doc (op_move from path)
  = match pointer_get doc from with
    | Raise e => Fail e doc
    | Ok val =>
        match pointer_remove doc from with
        | Fail e d => Fail e d
        | Ret doc1 => pointer_add doc1 path val
        end
    end.
Proof. reflexivity. Qed.

(** C2, refuted as stated: in [{"a": 1}] the pointer ["/a"] resolves and
    ["/b"] is absent, yet the move from ["/a"] to ["/b/c"] raises nothing:
    the parent ["/b"] is created and the value stored under it. *)
Lemma move_into_absent_parent :
  let doc := JObject [("a", JNum 1)] in
  pointer_get doc "/a" = Ok (JNum 1)
  /\ pointer_get doc "/b" = Raise (KeyError "b")
  /\ apply_patch doc [op_move "/a" "/b/c"]
     = Ret (JObject [("b", JObject [("c", JNum 1)])]).
Proof.
  cbv zeta. split; [reflexivity |]. split; reflexivity.
Qed.

(** C2, amended.  For every document in which ["/a"] resolves to a value
    [v] and ["/b"] does not resolve, the single operation move from ["/a"]
    to ["/b/c"] succeeds: the document is an object, the value is removed
    from ["/a"], resolving the parent of ["/b/c"] creates ["/b"] as a new
    last member, and the value is stored at ["/b/c"]. *)
Theorem move_creates_parent (doc v : json) (e : exn) :
  pointer_get doc "/a" = Ok v ->
  pointer_get doc "/b" = Raise e ->
  exists o : dict,
    doc = JObject o
    /\ apply_patch doc [op_move "/a" "/b/c"]
       = Ret (JObject (dict_del o "a" ++ [("b", JObject [("c", v)])])).
Proof.
  intros Ha Hb.
  unfold apply_patch. cbn [apply_patch_from]. rewrite apply_op_move, Ha.
  unfold pointer_get in Ha, Hb.
  change (_split_pointer "/a") with (@Ok (list string) ["a"]) in Ha.
  change (_split_pointer "/b") with (@Ok (list string) ["b"]) in Hb.
  cbn [get_loop] in Ha, Hb.
  destruct doc as [| | | | l | o]; try discriminate.
  exists o. split; [reflexivity |].
  destruct (dict_get o "a") as [va |] eqn:Hga; [| discriminate].
  injection Ha as ->.
  destruct (dict_get o "b") as [vb |] eqn:Hgb; [discriminate |].
  unfold pointer_remove.
  change (_split_pointer "/a") with (@Ok (list string) ["a"]).
  cbn [is_nil]. unfold _ensure_parent. cbn [removelast last ensure_loop].
  unfold dict_mem. rewrite Hga. cbn [plug fold_right].
  unfold pointer_add.
  change (_split_pointer "/b/c") with (@Ok (list string) ["b"; "c"]).
  cbn [is_nil]. unfold _ensure_parent. cbn [removelast last ensure_loop].
  rewrite dict_get_del_other by discriminate. rewrite Hgb.
  cbn [under dict_mem dict_get plug fold_right plug1 dict_set].
  rewrite dict_set_set, dict_set_absent; [reflexivity |].
  now rewrite dict_get_del_other by discriminate.
Qed.

Lemma move_creates_parent_witness :
  exists o : dict,
    JObject [("a", JNum 1); ("z", JNull)] = JObject o
    /\ apply_patch (JObject [("a", JNum 1); ("z", JNull)]) [op_move "/a" "/b/c"]
       = Ret (JObject (dict_del o "a" ++ [("b", JObject [("c", JNum 1)])])).
Proof.
  apply (move_creates_parent (JObject [("a", JNum 1); ("z", JNull)]) (JNum 1)
           (KeyError "b")); reflexivity.
Defined.

Lemma get_or_none_some (o : dict) (k : string) (v : json) :
  dict_get o k = Some v -> dict_get_or_none o k = v.
Proof. unfold dict_get_or_none. now intros ->. Qed.

(** The body of [apply_op] on a [test] operation. *)
Lemma apply_op_test
  (i : nat) (doc : json) (fields : dict) (path : string) :
  dict_get fields "op" = Some (JStr "test") ->
  dict_get fields "path" = Some (JStr path) ->
  apply_op i doc (JObject fields)
  = match pointer_get doc path with
    | Raise e => Fail e doc
    | Ok cur =>
        if py_eq cur (dict_get_or_none fields "value") then Ret doc
        else Fail (AssertionError_test i path cur
                     (dict_get_or_none fields "value")) doc
    end.
Proof.
  intros Hop Hpath.
  unfold apply_op.
  rewrite (get_or_none_some _ _ _ Hop), (get_or_none_some _ _ _ Hpath).
  change (is_op (JStr "test") "move") with false.
  change (is_op (JStr "test") "copy") with false.
  change (is_op (JStr "test") "add") with false.
  change (is_op (JStr "test") "remove") with false.
  change (is_op (JStr "test") "replace") with false.
  change (is_op (JStr "test") "test") with true.
  cbn [orb andb].
  destruct (pointer_get doc path) as [cur | e]; [| reflexivity].
  now destruct (py_eq cur (dict_get_or_none fields "value")).
Qed.

(** ** The comparison a test makes *)








(** ** Parents created on the way to a failure *)

Lemma plug_app (c1 c2 : list frame) (x : json) :
  plug (c1 ++ c2) x = plug c1 (plug c2 x).
Proof. unfold plug. apply fold_right_app. Qed.

Lemma ensure_loop_app (cur : json) (pre rest : list string)
  (ctx : list frame) (p : json) :
  ensure_loop cur pre = Ret (ctx, p) ->
  ensure_loop cur (pre ++ rest)
  = match ensure_loop p rest with
    | Ret (ctx', q) => Ret (ctx ++ ctx', q)
    | Fail e d => Fail e (plug ctx d)
    end.
Proof.
  revert cur ctx. induction pre as [| t pre IH]; intros cur ctx.
  - intros [= <- <-]. cbn [app]. now destruct (ensure_loop cur rest) as [[ctx' q] |].
  - cbn [app ensure_loop].
    destruct cur as [| | | | l | o]; try discriminate.
    + destruct (PyStr.int t) as [idx |]; [| discriminate].
      destruct (subscript l idx) as [[i child] |]; [| discriminate].
      destruct (ensure_loop child pre) as [[ctx0 p0] |] eqn:He; [| discriminate].
      intros [= <- <-]. rewrite (IH _ _ He).
      now destruct (ensure_loop p0 rest) as [[ctx' q] |].
    + destruct (dict_get o t) as [child |].
      * destruct (ensure_loop child pre) as [[ctx0 p0] |] eqn:He; [| discriminate].
        intros [= <- <-]. rewrite (IH _ _ He).
        now destruct (ensure_loop p0 rest) as [[ctx' q] |].
      * destruct (ensure_loop (JObject []) pre) as [[ctx0 p0] |] eqn:He; [| discriminate].
        intros [= <- <-]. rewrite (IH _ _ He).
        now destruct (ensure_loop p0 rest) as [[ctx' q] |].
Qed.




(** ** The backup of a commit *)

Lemma append_right_neutral_only (s t : string) : (s ++ t)%string = s -> t = "".
Proof.
  induction s as [| c s IH]; cbn [append]; [easy |].
  intros [= H]. now apply IH.
Qed.

Lemma update_same (fs : Store.files) (p : string) (c : option string) :
  Store.update fs p c p = c.
Proof. unfold Store.update. now rewrite String.eqb_refl. Qed.

Lemma update_other (fs : Store.files) (p q : string) (c : option string) :
  q <> p -> Store.update fs p c q = fs q.
Proof.
  intros H. unfold Store.update. apply String.eqb_neq in H. now rewrite H.
Qed.

Lemma string_length_append (s t : string) :
  String.length (s ++ t) = (String.length s + String.length t)%nat.
Proof. induction s as [| c s IH]; cbn; [reflexivity | now rewrite IH]. Qed.

(** The stamp of a date of the calendar has the sixteen characters of
    [YYYYMMDDThhmmssZ]. *)
Lemma zfill_length (width bound : nat) :
  forallb (fun n => Nat.eqb (String.length (Store.zfill width n)) width)
          (seq 0 bound) = true ->
  forall n, (n < bound)%nat -> String.length (Store.zfill width n) = width.
Proof.
  intros H n Hn. rewrite forallb_forall in H.
  apply Nat.eqb_eq. apply H. apply in_seq. lia.
Qed.

Lemma strftime_compact_length (ts : Store.datetime) :
  (Store.year ts < 100 * 100)%nat -> (Store.month ts < 100)%nat ->
  (Store.day ts < 100)%nat -> (Store.hour ts < 100)%nat ->
  (Store.minute ts < 100)%nat -> (Store.second ts < 100)%nat ->
  String.length (Store.strftime_compact ts) = 16%nat.
Proof.
  intros Hy Hm Hd Hh Hmi Hs. unfold Store.strftime_compact.
  assert (H4 := zfill_length 4 (100 * 100) ltac:(vm_compute; reflexivity)).
  assert (H2 := zfill_length 2 100 ltac:(vm_compute; reflexivity)).
  rewrite !string_length_append.
  rewrite H4, !H2 by assumption. reflexivity.
Qed.



(** ** The scenarios of the specification that the code meets *)

Example scenario_add_layers :
  apply_patch (JObject []) [op_add "/layers" (JArray [])]
  = Ret (JObject [("layers", JArray [])]).
Proof. reflexivity. Qed.

Example scenario_test_then_add :
  apply_patch
    (JObject [("layers", JArray [JObject [("id", JStr "T001")]])])
    [JObject [("op", JStr "test"); ("path", JStr "/layers/0/id");
              ("value", JStr "T001")];
     op_add "/layers/0/activity" (JObject [("type", JStr "review")])]
  = Ret (JObject [("layers",
           JArray [JObject [("id", JStr "T001");
                            ("activity", JObject [("type", JStr "review")])]])]).
Proof. reflexivity. Qed.

Example scenario_remove_out_of_range :
  apply_patch (JObject [("x", JArray [JNum 1; JNum 2; JNum 3])])
    [JObject [("op", JStr "remove"); ("path", JStr "/x/5")]]
  = Fail IndexError (JObject [("x", JArray [JNum 1; JNum 2; JNum 3])]).
Proof. reflexivity. Qed.

Example stamp_of_a_date :
  Store.strftime_compact (Store.Datetime 2026 11 3 9 5 7) = "20261103T090507Z".
Proof. reflexivity. Qed.

Example int_examples :
  PyStr.int "-1" = Some (-1)%Z /\ PyStr.int " +07 " = Some 7%Z
  /\ PyStr.int "1_0" = Some 10%Z /\ PyStr.int "-" = None
  /\ PyStr.int "1__0" = None /\ PyStr.int "" = None /\ PyStr.int "a" = None.
Proof. repeat split. Qed.

(** ** Patches of tests *)

(** X9.  A patch made of [test] operations only never changes the
    document: [apply_patch] returns the document as it was given, or fails
    leaving the document as it was given. *)
Lemma tests_leave_document (patch : list json) :
  Forall (fun op => exists fields path,
            op = JObject fields
            /\ dict_get fields "op" = Some (JStr "test")
            /\ dict_get fields "path" = Some (JStr path)) patch ->
  forall (i : nat) (doc : json),
    apply_patch_from i doc patch = Ret doc
    \/ exists e, apply_patch_from i doc patch = Fail e doc.
Proof.
  induction 1 as [| op patch (fields & path & -> & Hop & Hpath) _ IH];
    intros i doc; cbn [apply_patch_from]; [now left |].
  rewrite (apply_op_test i doc fields path Hop Hpath).
  destruct (pointer_get doc path) as [cur | e]; [| right; now eexists].
  destruct (py_eq cur _); [apply IH | right; now eexists].
Qed.

(** * Further properties of the pointer helpers *)

(** ** More on containers *)

Section ListEdit.
Context {A : Type}.

Lemma set_at_set_at (l : list A) (i : nat) (x y : A) :
  (i < List.length l)%nat ->
  PyList.set_at (PyList.set_at l i x) i y = PyList.set_at l i y.
Proof.
  intros H. unfold PyList.set_at.
  rewrite firstn_app, firstn_firstn, Nat.min_id, length_firstn.
  replace (i - Nat.min i (List.length l))%nat with 0%nat by lia.
  cbn [firstn]. rewrite app_nil_r. f_equal. f_equal.
  rewrite skipn_app, length_firstn.
  replace (S i - Nat.min i (List.length l))%nat with 1%nat by lia.
  rewrite skipn_firstn_comm.
  replace (i - S i)%nat with 0%nat by lia. reflexivity.
Qed.

Lemma length_insert_at (l : list A) (i : nat) (v : A) :
  (i <= List.length l)%nat ->
  List.length (PyList.insert_at l i v) = S (List.length l).
Proof.
  intros H. unfold PyList.insert_at.
  rewrite length_app. cbn [List.length].
  rewrite length_firstn, length_skipn. lia.
Qed.

Lemma nth_error_insert_at (l : list A) (i : nat) (v : A) :
  (i <= List.length l)%nat -> nth_error (PyList.insert_at l i v) i = Some v.
Proof.
  intros H. unfold PyList.insert_at.
  rewrite nth_error_app2; rewrite length_firstn; [| lia].
  replace (i - Nat.min i (List.length l))%nat with 0%nat by lia.
  reflexivity.
Qed.

Lemma del_at_insert_at (l : list A) (i : nat) (v : A) :
  (i <= List.length l)%nat ->
  PyList.del_at (PyList.insert_at l i v) i = l.
Proof.
  intros H. unfold PyList.del_at, PyList.insert_at.
  rewrite firstn_app, firstn_firstn, Nat.min_id, length_firstn.
  replace (i - Nat.min i (List.length l))%nat with 0%nat by lia.
  cbn [firstn]. rewrite app_nil_r.
  rewrite skipn_app, length_firstn.
  replace (S i - Nat.min i (List.length l))%nat with 1%nat by lia.
  rewrite skipn_firstn_comm.
  replace (i - S i)%nat with 0%nat by lia.
  cbn [firstn skipn app]. apply firstn_skipn.
Qed.

End ListEdit.

Lemma dict_del_set_absent (o : dict) (k : string) (v : json) :
  dict_get o k = None -> dict_del (dict_set o k v) k = o.
Proof.
  induction o as [| [k' v'] o IH]; cbn [dict_get dict_set dict_del].
  - now rewrite String.eqb_refl.
  - destruct (String.eqb k' k) eqn:E; [discriminate |].
    intros H. cbn [dict_del]. rewrite E. now rewrite IH.
Qed.

Lemma position_in_range (n : nat) (k : Z) :
  (0 <= k < Z.of_nat n)%Z -> PyList.position n k = Some (Z.to_nat k).
Proof.
  intros H. unfold PyList.position.
  destruct (k <? 0)%Z eqn:E1; [lia |].
  destruct (k <? Z.of_nat n)%Z eqn:E2; [reflexivity | lia].
Qed.

Lemma insert_position_in_range (n : nat) (k : Z) :
  (0 <= k <= Z.of_nat n)%Z -> PyList.insert_position n k = Z.to_nat k.
Proof.
  intros H. unfold PyList.insert_position.
  destruct (k <? 0)%Z eqn:E1; lia.
Qed.

(** What [insert] put at an index inside [0 .. len] is what a subscript
    with that index finds. *)
Lemma subscript_insert_at (l : list json) (k : Z) (v : json) :
  (0 <= k <= Z.of_nat (List.length l))%Z ->
  subscript (PyList.insert_at l (PyList.insert_position (List.length l) k) v) k
  = Some (Z.to_nat k, v).
Proof.
  intros H. rewrite insert_position_in_range by assumption.
  unfold subscript.
  rewrite length_insert_at by lia.
  rewrite position_in_range by lia.
  now rewrite nth_error_insert_at by lia.
Qed.

(** ** Walking a document that has been edited *)

(** [_ensure_parent] walks an edited document as it walked the original
    one, and plugging into either gives the same. *)
Lemma ensure_loop_plug (cur : json) (pre : list string) (ctx : list frame) (p : json) :
  ensure_loop cur pre = Ret (ctx, p) ->
  forall x : json,
    exists ctx', ensure_loop (plug ctx x) pre = Ret (ctx', x)
                 /\ forall y, plug ctx' y = plug ctx y.
Proof.
  revert cur ctx. induction pre as [| t pre IH]; intros cur ctx.
  - intros [= <- _] x. now exists [].
  - cbn [ensure_loop].
    destruct cur as [| | | | l | o]; try discriminate.
    + destruct (PyStr.int t) as [idx |] eqn:Hint; [| discriminate].
      destruct (subscript l idx) as [[i child] |] eqn:Hs; [| discriminate].
      destruct (ensure_loop child pre) as [[ctx0 p0] |] eqn:He; [| discriminate].
      intros [= <- <-] x.
      destruct (IH _ _ He x) as (ctx' & He' & Hplug).
      exists (InList (PyList.set_at l i (plug ctx0 x)) i :: ctx'). split.
      * rewrite plug_cons. cbn [plug1 ensure_loop].
        rewrite (subscript_set_at _ _ _ _ _ Hs), He'. reflexivity.
      * intros y. rewrite !plug_cons, Hplug. cbn [plug1]. f_equal.
        apply set_at_set_at.
        apply subscript_nth in Hs. apply nth_error_Some. congruence.
    + destruct (dict_get o t) as [child |] eqn:Hg.
      * destruct (ensure_loop child pre) as [[ctx0 p0] |] eqn:He; [| discriminate].
        intros [= <- <-] x.
        destruct (IH _ _ He x) as (ctx' & He' & Hplug).
        exists (InDict (dict_set o t (plug ctx0 x)) t :: ctx'). split.
        -- rewrite plug_cons. cbn [plug1].
           rewrite dict_get_set_same, He'. reflexivity.
        -- intros y. rewrite !plug_cons, Hplug. cbn [plug1].
           now rewrite dict_set_set.
      * destruct (ensure_loop (JObject []) pre) as [[ctx0 p0] |] eqn:He; [| discriminate].
        intros [= <- <-] x.
        destruct (IH _ _ He x) as (ctx' & He' & Hplug).
        exists (InDict (dict_set (dict_set o t (JObject [])) t (plug ctx0 x)) t :: ctx').
        split.
        -- rewrite plug_cons. cbn [plug1].
           rewrite dict_get_set_same, He'. reflexivity.
        -- intros y. rewrite !plug_cons, Hplug. cbn [plug1].
           now rewrite dict_set_set.
Qed.

(** ** Add, then get or remove *)

Lemma add_then_get
  (doc : json) (ptr : string) (tokens : list string) (value d' : json) :
  _split_pointer ptr = Ok tokens ->
  pointer_add doc ptr value = Ret d' ->
  (forall ctx l last,
      _ensure_parent doc tokens = Ret (ctx, (JArray l, last)) ->
      exists k, PyStr.int last = Some k
                /\ (0 <= k <= Z.of_nat (List.length l))%Z) ->
  pointer_get d' ptr = Ok value.
Proof.
  intros Hsplit Hadd Harr.
  unfold pointer_add, pointer_get in *. rewrite Hsplit in *.
  destruct (is_nil tokens) eqn:Hnil.
  - injection Hadd as <-. now destruct tokens.
  - rewrite (tokens_snoc tokens Hnil) in *.
    set (pre := removelast tokens) in *. set (t := last tokens "") in *.
    rewrite ensure_parent_snoc in *.
    destruct (ensure_loop doc pre) as [[ctx parent] |] eqn:Hens; [| discriminate].
    rewrite (get_loop_plug _ _ _ _ Hens) || idtac.
    destruct parent as [| | | s | l | o]; try discriminate.
    + now destruct (PyStr.contains t s).
    + destruct (Harr ctx l t eq_refl) as (k & Hint & Hk).
      rewrite (int_not_dash _ _ Hint), Hint in Hadd.
      destruct (PyList.fits_ssize k); [| discriminate].
      injection Hadd as <-.
      rewrite (get_loop_plug _ _ _ _ Hens). cbn [get_loop].
      rewrite (int_not_dash _ _ Hint), Hint.
      now rewrite subscript_insert_at.
    + destruct (dict_mem o t); [discriminate |].
      injection Hadd as <-.
      rewrite (get_loop_plug _ _ _ _ Hens). cbn [get_loop].
      now rewrite dict_get_set_same.
Qed.

(** X1.  What [pointer_add] stored is what [pointer_get] finds at the same
    pointer: whenever [pointer_add doc ptr value] succeeds, with the value
    going into an object, or replacing the root, or into an array at an
    index token [k] with [0 <= k <= len], [pointer_get] on the result at
    [ptr] returns [value].  (Parents that [pointer_add] created on the way
    are covered.) *)
Theorem get_after_add
  (doc : json) (ptr : string) (tokens : list string) (value d' : json) :
  _split_pointer ptr = Ok tokens ->
  pointer_add doc ptr value = Ret d' ->
  (forall ctx l last,
      _ensure_parent doc tokens = Ret (ctx, (JArray l, last)) ->
      exists k, PyStr.int last = Some k
                /\ (0 <= k <= Z.of_nat (List.length l))%Z) ->
  pointer_get d' ptr = Ok value.
Proof. apply add_then_get. Qed.

Lemma get_after_add_witness :
  pointer_get (JObject [("x", JArray [JNum 1; JNum 9; JNum 2; JNum 3])]) "/x/1"
  = Ok (JNum 9).
Proof.
  apply (get_after_add (JObject [("x", JArray [JNum 1; JNum 2; JNum 3])])
           "/x/1" ["x"; "1"] (JNum 9)); [reflexivity | reflexivity |].
  intros ctx l last H. vm_compute in H. injection H as <- <- <-.
  exists 1%Z. split; [reflexivity | cbn; lia].
Defined.

(** X2.  Removing what was just added restores the document: when every
    token before the last resolves in [doc] and [pointer_add doc ptr value]
    succeeds, into an object or into an array at an index token [k] with
    [0 <= k <= len], then [pointer_remove] at [ptr] on the result succeeds
    and returns [doc] itself. *)
Theorem remove_after_add
  (doc : json) (ptr : string) (tokens : list string)
  (parent value d' : json) :
  _split_pointer ptr = Ok tokens ->
  get_loop doc (removelast tokens) = Ok parent ->
  pointer_add doc ptr value = Ret d' ->
  is_nil tokens = false ->
  (forall l, parent = JArray l ->
      exists k, PyStr.int (last tokens "") = Some k
                /\ (0 <= k <= Z.of_nat (List.length l))%Z) ->
  pointer_remove d' ptr = Ret doc.
Proof.
  intros Hsplit Hpre Hadd Hnil Harr.
  unfold pointer_add, pointer_remove in *. rewrite Hsplit, Hnil in *.
  unfold _ensure_parent in *.
  set (pre := removelast tokens) in *. set (t := last tokens "") in *.
  destruct (get_loop_ensure_loop _ _ _ Hpre) as (ctx & Hens & Hdoc).
  rewrite Hens in Hadd.
  destruct parent as [| | | s | l | o]; try discriminate.
  - now destruct (PyStr.contains t s).
  - destruct (Harr l eq_refl) as (k & Hint & Hk).
    rewrite (int_not_dash _ _ Hint), Hint in Hadd.
    destruct (PyList.fits_ssize k); [| discriminate].
    injection Hadd as <-.
    destruct (ensure_loop_plug _ _ _ _ Hens
                (JArray (PyList.insert_at l
                           (PyList.insert_position (List.length l) k) value)))
      as (ctx' & -> & Hplug).
    rewrite Hint, subscript_insert_at by assumption.
    rewrite Hplug, insert_position_in_range by assumption.
    rewrite del_at_insert_at by lia. now rewrite Hdoc.
  - destruct (dict_mem o t) eqn:Hmem; [discriminate |].
    injection Hadd as <-.
    destruct (ensure_loop_plug _ _ _ _ Hens (JObject (dict_set o t value)))
      as (ctx' & -> & Hplug).
    unfold dict_mem in *. rewrite dict_get_set_same.
    destruct (dict_get o t) eqn:Hg; [discriminate |].
    rewrite Hplug, dict_del_set_absent by assumption. now rewrite Hdoc.
Qed.

Lemma remove_after_add_witness :
  pointer_remove (JObject [("x", JArray [JNum 1; JNum 9; JNum 2; JNum 3])]) "/x/1"
  = Ret (JObject [("x", JArray [JNum 1; JNum 2; JNum 3])]).
Proof.
  apply (remove_after_add (JObject [("x", JArray [JNum 1; JNum 2; JNum 3])])
           "/x/1" ["x"; "1"] (JArray [JNum 1; JNum 2; JNum 3]) (JNum 9));
    [reflexivity | reflexivity | reflexivity | reflexivity |].
  intros l [= <-]. exists 1%Z. split; [reflexivity | cbn; lia].
Defined.

(** ** Replace twice *)

(** X3.  The last replacement wins: after a [pointer_replace] at [ptr] that
    succeeded, a second [pointer_replace] at [ptr] gives exactly what it
    would have given on the original document. *)
Theorem replace_after_replace
  (doc : json) (ptr : string) (v1 v2 d1 : json) :
  pointer_replace doc ptr v1 = Ret d1 ->
  pointer_replace d1 ptr v2 = pointer_replace doc ptr v2.
Proof.
  unfold pointer_replace.
  destruct (_split_pointer ptr) as [tokens | e]; [| discriminate].
  destruct (is_nil tokens) eqn:Hnil; [reflexivity |].
  unfold _ensure_parent.
  set (pre := removelast tokens). set (t := last tokens "").
  destruct (ensure_loop doc pre) as [[ctx parent] |] eqn:Hens; [| discriminate].
  destruct parent as [| | | s | l | o]; try discriminate.
  - now destruct (PyStr.contains t s).
  - destruct (PyStr.int t) as [k |] eqn:Hint; [| discriminate].
    destruct (subscript l k) as [[i x] |] eqn:Hs; [| discriminate].
    intros [= <-].
    destruct (ensure_loop_plug _ _ _ _ Hens (JArray (PyList.set_at l i v1)))
      as (ctx' & -> & Hplug).
    cbv beta iota. rewrite Hint, (subscript_set_at _ _ _ _ v1 Hs), Hplug.
    rewrite set_at_set_at; [reflexivity |].
    apply subscript_nth in Hs. apply nth_error_Some. congruence.
  - destruct (dict_mem o t) eqn:Hmem; [| discriminate]. cbn [negb].
    intros [= <-].
    destruct (ensure_loop_plug _ _ _ _ Hens (JObject (dict_set o t v1)))
      as (ctx' & -> & Hplug).
    cbv beta iota. unfold dict_mem. rewrite dict_get_set_same. cbn [negb].
    now rewrite Hplug, dict_set_set.
Qed.

Lemma replace_after_replace_witness :
  pointer_replace (JObject [("a", JObject [("b", JStr "first")])]) "/a/b" (JStr "second")
  = pointer_replace (JObject [("a", JObject [("b", JNum 0)])]) "/a/b" (JStr "second").
Proof.
  apply (replace_after_replace (JObject [("a", JObject [("b", JNum 0)])])
           "/a/b" (JStr "first") (JStr "second")).
  reflexivity.
Defined.

(** ** Failures that leave the document alone *)

(** X4.  When every token before the last resolves in [doc], a failing
    [pointer_add], [pointer_replace] or [pointer_remove] leaves the document
    exactly as it was (there is nothing for [setdefault] to create). *)
Theorem failing_edit_keeps_document
  (doc : json) (ptr : string) (tokens : list string) (parent value : json) :
  _split_pointer ptr = Ok tokens ->
  get_loop doc (removelast tokens) = Ok parent ->
  (forall e d, pointer_add doc ptr value = Fail e d -> d = doc)
  /\ (forall e d, pointer_replace doc ptr value = Fail e d -> d = doc)
  /\ (forall e d, pointer_remove doc ptr = Fail e d -> d = doc).
Proof.
  intros Hsplit Hpre.
  destruct (get_loop_ensure_loop _ _ _ Hpre) as (ctx & Hens & Hdoc).
  unfold pointer_add, pointer_replace, pointer_remove, _ensure_parent.
  rewrite Hsplit, Hens, Hdoc.
  destruct (is_nil tokens); [repeat split; intros e d; congruence |].
  repeat split; intros e d;
    destruct parent as [| | | s | l | o];
    repeat match goal with
           | |- context [if ?c then _ else _] => destruct c
           | |- context [match PyStr.int ?t with _ => _ end] => destruct (PyStr.int t)
           | |- context [match subscript ?l ?k with _ => _ end] =>
               destruct (subscript l k) as [[? ?] |]
           end; congruence.
Qed.

Lemma failing_edit_keeps_document_witness :
  let doc := JObject [("x", JArray [JNum 1; JNum 2; JNum 3])] in
  let left_behind := JObject [("x", JArray [JNum 1; JNum 2; JNum 3])] in
  _split_pointer "/x/5" = Ok ["x"; "5"]
  /\ get_loop doc (removelast ["x"; "5"]) = Ok (JArray [JNum 1; JNum 2; JNum 3])
  /\ pointer_remove doc "/x/5" = Fail IndexError left_behind
  /\ left_behind = doc.
Proof.
  cbv zeta. do 3 (split; [reflexivity |]).
  exact (proj2 (proj2 (failing_edit_keeps_document
                         (JObject [("x", JArray [JNum 1; JNum 2; JNum 3])])
                         "/x/5" ["x"; "5"] (JArray [JNum 1; JNum 2; JNum 3]) JNull
                         eq_refl eq_refl))
           IndexError (JObject [("x", JArray [JNum 1; JNum 2; JNum 3])]) eq_refl).
Defined.

(** ** What an edit leaves alone *)

(** A successful edit puts a new value where [_ensure_parent] stopped; when
    it stopped at an object, only the member named by the last token is
    touched. *)
Lemma edit_result_shape
  (doc : json) (ptr : string) (tokens : list string) (value d' : json) :
  _split_pointer ptr = Ok tokens ->
  is_nil tokens = false ->
  pointer_add doc ptr value = Ret d'
  \/ pointer_replace doc ptr value = Ret d'
  \/ pointer_remove doc ptr = Ret d' ->
  exists ctx parent X,
    ensure_loop doc (removelast tokens) = Ret (ctx, parent)
    /\ d' = plug ctx X
    /\ forall o, parent = JObject o ->
         exists o2, X = JObject o2
                    /\ forall k', k' <> last tokens "" ->
                                  dict_get o2 k' = dict_get o k'.
Proof.
  intros Hsplit Hnil H.
  unfold pointer_add, pointer_replace, pointer_remove, _ensure_parent in H.
  rewrite Hsplit, Hnil in H.
  set (t := last tokens "") in *.
  destruct (ensure_loop doc (removelast tokens)) as [[ctx parent] |];
    [| now destruct H as [H | [H | H]]].
  exists ctx, parent.
  destruct parent as [| | | s | l | o].
  1-4: destruct H as [H | [H | H]]; try discriminate;
       now destruct (PyStr.contains t s).
  - assert (HX : exists X, d' = plug ctx X).
    { destruct H as [H | [H | H]].
      - destruct (String.eqb t "-"); [injection H as <-; now eexists |].
        destruct (PyStr.int t) as [k |]; [| discriminate].
        destruct (PyList.fits_ssize k); [| discriminate].
        injection H as <-. now eexists.
      - destruct (PyStr.int t) as [k |]; [| discriminate].
        destruct (subscript l k) as [[i x] |]; [| discriminate].
        injection H as <-. now eexists.
      - destruct (PyStr.int t) as [k |]; [| discriminate].
        destruct (subscript l k) as [[i x] |]; [| discriminate].
        injection H as <-. now eexists. }
    destruct HX as [X ->]. exists X. repeat split. discriminate.
  - assert (HX : exists o2, d' = plug ctx (JObject o2)
                            /\ forall k', k' <> t -> dict_get o2 k' = dict_get o k').
    { destruct (dict_mem o t); destruct H as [H | [H | H]];
        try discriminate; injection H as <-; eexists; split; try reflexivity;
        intros k' Hk'.
      - apply dict_get_set_other. congruence.
      - apply dict_get_del_other. congruence.
      - apply dict_get_set_other. congruence. }
    destruct HX as (o2 & -> & Ho2). exists (JObject o2). repeat split.
    intros o' [= <-]. now exists o2.
Qed.

Lemma get_loop_member (o : dict) (k : string) (rest : list string) :
  get_loop (JObject o) (k :: rest)
  = match dict_get o k with
    | Some child => get_loop child rest
    | None => Raise (KeyError k)
    end.
Proof. cbn [get_loop]. now destruct (dict_get o k). Qed.

Lemma edit_frame
  (doc : json) (ptr q : string) (pre : list string) (k : string)
  (rest : list string) (k' : string) (rest' : list string) (o : dict)
  (value d' : json) :
  _split_pointer ptr = Ok (pre ++ k :: rest) ->
  _split_pointer q = Ok (pre ++ k' :: rest') ->
  get_loop doc pre = Ok (JObject o) ->
  k' <> k ->
  pointer_add doc ptr value = Ret d'
  \/ pointer_replace doc ptr value = Ret d'
  \/ pointer_remove doc ptr = Ret d' ->
  pointer_get d' q = pointer_get doc q.
Proof.
  intros Hptr Hq Hpre Hne Hedit.
  assert (Hnil : is_nil (pre ++ k :: rest) = false) by now destruct pre.
  destruct (edit_result_shape _ _ _ _ _ Hptr Hnil Hedit)
    as (ctxF & parent & X & Hwalk & -> & Hobj).
  destruct (get_loop_ensure_loop _ _ _ Hpre) as (ctx & Hens & _).
  unfold pointer_get. rewrite Hq.
  rewrite (get_loop_app doc), Hpre, get_loop_member.
  destruct (exists_last (l := k :: rest) ltac:(discriminate)) as (body & lst & Hbody).
  rewrite Hbody, app_assoc in Hwalk, Hobj.
  rewrite removelast_last in Hwalk. rewrite last_last in Hobj.
  destruct body as [| k0 rest0]; cbn [app] in Hbody.
  - injection Hbody as <- _. rewrite app_nil_r in Hwalk.
    rewrite Hens in Hwalk. injection Hwalk as <- <-.
    destruct (Hobj o eq_refl) as (o2 & -> & Ho2).
    rewrite (get_loop_plug _ _ _ _ Hens), get_loop_member.
    now rewrite Ho2.
  - injection Hbody as <- _.
    rewrite (ensure_loop_app _ _ _ _ _ Hens) in Hwalk.
    assert (Hstep : exists o' c'',
               ctxF = ctx ++ InDict o' k :: c''
               /\ dict_get o' k' = dict_get o k').
    { cbn [ensure_loop] in Hwalk.
      destruct (dict_get o k) as [child |].
      - destruct (ensure_loop child rest0) as [[c'' p] |]; [| discriminate].
        injection Hwalk as <- _. now exists o, c''.
      - destruct (ensure_loop (JObject []) rest0) as [[c'' p] |]; [| discriminate].
        injection Hwalk as <- _. exists (dict_set o k (JObject [])), c''.
        split; [reflexivity |]. apply dict_get_set_other. congruence. }
    destruct Hstep as (o' & c'' & -> & Ho').
    rewrite plug_app, plug_cons. cbn [plug1].
    rewrite (get_loop_plug _ _ _ _ Hens), get_loop_member.
    rewrite dict_get_set_other by congruence. now rewrite Ho'.
Qed.

(** X5.  An edit under one member of an object leaves the other members of
    that object alone.  Let [ptr] and [q] share the tokens [pre], which
    resolve to an object in [doc], and then continue with different keys
    [k] and [k'].  After a successful [pointer_add], [pointer_replace] or
    [pointer_remove] at [ptr], [pointer_get] at [q] gives what it gave
    before (the same value, or the same exception). *)
Theorem edit_keeps_other_members
  (doc : json) (ptr q : string) (pre : list string) (k : string)
  (rest : list string) (k' : string) (rest' : list string) (o : dict)
  (value d' : json) :
  _split_pointer ptr = Ok (pre ++ k :: rest) ->
  _split_pointer q = Ok (pre ++ k' :: rest') ->
  get_loop doc pre = Ok (JObject o) ->
  k' <> k ->
  pointer_add doc ptr value = Ret d'
  \/ pointer_replace doc ptr value = Ret d'
  \/ pointer_remove doc ptr = Ret d' ->
  pointer_get d' q = pointer_get doc q.
Proof. apply edit_frame. Qed.

Lemma edit_keeps_other_members_witness :
  pointer_get (JObject [("a", JObject [("b", JNum 1)]); ("n", JObject [("m", JNull)])])
    "/a/b"
  = pointer_get (JObject [("a", JObject [("b", JNum 1)])]) "/a/b".
Proof.
  apply (edit_keeps_other_members (JObject [("a", JObject [("b", JNum 1)])])
           "/n/m" "/a/b" [] "n" ["m"] "a" ["b"] [("a", JObject [("b", JNum 1)])]
           JNull);
    [reflexivity | reflexivity | reflexivity | discriminate |].
  left. reflexivity.
Defined.

(** ** Patches in sequence *)

Lemma same_outcome_refl (r : mres json) : same_outcome r r.
Proof. destruct r; cbn; auto. Qed.

(** The index of an operation shows in its exceptions only. *)
Lemma apply_op_index (i j : nat) (doc op : json) :
  same_outcome (apply_op i doc op) (apply_op j doc op).
Proof.
  unfold apply_op.
  repeat first
    [ apply same_outcome_refl
    | progress (cbn [same_outcome forget_index]); split; reflexivity
    | match goal with
      | |- context [match ?x with _ => _ end] => destruct x
      end ].
Qed.

Lemma apply_patch_from_index (patch : list json) :
  forall (i j : nat) (doc : json),
    same_outcome (apply_patch_from i doc patch) (apply_patch_from j doc patch).
Proof.
  induction patch as [| op patch IH]; intros i j doc; cbn [apply_patch_from].
  - reflexivity.
  - pose proof (apply_op_index i j doc op) as H.
    destruct (apply_op i doc op), (apply_op j doc op); cbn in H;
      try contradiction.
    + subst. apply IH.
    + exact H.
Qed.

Lemma apply_patch_from_app (p1 p2 : list json) :
  forall (i : nat) (doc : json),
    apply_patch_from i doc (p1 ++ p2)
    = match apply_patch_from i doc p1 with
      | Ret d => apply_patch_from (i + List.length p1) d p2
      | Fail e d => Fail e d
      end.
Proof.
  induction p1 as [| op p1 IH]; intros i doc; cbn [app apply_patch_from List.length].
  - now rewrite Nat.add_0_r.
  - destruct (apply_op i doc op); [| reflexivity].
    rewrite IH. now replace (S i + List.length p1)%nat with (i + S (List.length p1))%nat by lia.
Qed.

(** X6.  A patch in two parts: [apply_patch] on [p1 ++ p2] stops where
    [p1] fails, with the same exception and the same document state, and
    never looks at [p2]; where [p1] succeeds it goes on as [apply_patch]
    with [p2] on the result of [p1] (only the operation index quoted in an
    exception counts from the start of the whole patch). *)
Theorem apply_patch_app (doc : json) (p1 p2 : list json) :
  (forall e d, apply_patch doc p1 = Fail e d ->
               apply_patch doc (p1 ++ p2) = Fail e d)
  /\ (forall d, apply_patch doc p1 = Ret d ->
                same_outcome (apply_patch doc (p1 ++ p2)) (apply_patch d p2)).
Proof.
  unfold apply_patch. rewrite apply_patch_from_app. split.
  - now intros e d ->.
  - intros d ->. apply apply_patch_from_index.
Qed.

Lemma apply_patch_app_witness :
  apply_patch (JObject [("a", JNum 1)])
    ([op_add "/a" (JNum 2)] ++ [op_add "/b" (JNum 3)])
  = Fail (KeyError_add_exists "/a") (JObject [("a", JNum 1)]).
Proof.
  apply (proj1 (apply_patch_app (JObject [("a", JNum 1)])
                  [op_add "/a" (JNum 2)] [op_add "/b" (JNum 3)])).
  reflexivity.
Defined.

Lemma consolidated_from (patches : list json) :
  forall (acc ops : list json),
    make_consolidated_patch acc patches = Ok ops ->
    exists more,
      ops = acc ++ more
      /\ forall (i : nat) (doc : json),
           same_outcome (apply_patches_in_order doc patches)
                        (apply_patch_from i doc more).
Proof.
  induction patches as [| patch patches IH]; intros acc ops;
    cbn [make_consolidated_patch apply_patches_in_order].
  - intros [= <-]. exists []. split; [now rewrite app_nil_r | reflexivity].
  - unfold apply_patch_loaded.
    destruct (py_iter patch) as [items | e]; [| discriminate].
    intros H. destruct (IH _ _ H) as (more & -> & Hmore).
    exists (items ++ more). split; [now rewrite app_assoc |].
    intros i doc. rewrite apply_patch_from_app. unfold apply_patch.
    pose proof (apply_patch_from_index items 0 i doc) as Hi.
    destruct (apply_patch_from 0 doc items), (apply_patch_from i doc items);
      cbn in Hi; try contradiction.
    + subst. apply Hmore.
    + exact Hi.
Qed.

(** X7.  The consolidated patch does what the patches do in order.  When
    [make_consolidated_patch.py] can build its list of operations from the
    contents of the patch files, applying that one list to a document ends
    as [apply_patches_in_order.py] ends on the same document and the same
    contents: with the same final document, or with the same exception (but
    for the operation index it quotes) in the same document state. *)
Theorem consolidated_patch_equivalent
  (doc : json) (patches ops : list json) :
  make_consolidated_patch [] patches = Ok ops ->
  same_outcome (apply_patches_in_order doc patches) (apply_patch doc ops).
Proof.
  intros H. destruct (consolidated_from _ _ _ H) as (more & -> & Hmore).
  apply Hmore.
Qed.

Lemma consolidated_patch_equivalent_witness :
  same_outcome
    (apply_patches_in_order (JObject [])
       [JArray [op_add "/layers" (JArray [])];
        JArray [op_add "/layers/-" (JStr "T001");
                JObject [("op", JStr "test"); ("path", JStr "/layers/0");
                         ("value", JStr "T002")]]])
    (apply_patch (JObject [])
       [op_add "/layers" (JArray []);
        op_add "/layers/-" (JStr "T001");
        JObject [("op", JStr "test"); ("path", JStr "/layers/0");
                 ("value", JStr "T002")]]).
Proof.
  apply (consolidated_patch_equivalent (JObject [])
           [JArray [op_add "/layers" (JArray [])];
            JArray [op_add "/layers/-" (JStr "T001");
                    JObject [("op", JStr "test"); ("path", JStr "/layers/0");
                             ("value", JStr "T002")]]]).
  reflexivity.
Defined.

(** ** Distinct keys are kept *)

Lemma keys_unique_array (l : list json) :
  keys_unique (JArray l) <-> Forall keys_unique l.
Proof.
  cbn [keys_unique]. induction l as [| x l IH].
  - split; [constructor | easy].
  - rewrite Forall_cons_iff, <- IH. reflexivity.
Qed.

Lemma keys_unique_object (o : dict) :
  keys_unique (JObject o)
  <-> NoDup (map fst o) /\ Forall (fun kv => keys_unique (snd kv)) o.
Proof.
  cbn [keys_unique]. apply and_iff_compat_l.
  induction o as [| [k v] o IH].
  - split; [constructor | easy].
  - rewrite Forall_cons_iff, <- IH. reflexivity.
Qed.

Lemma dict_get_in (o : dict) (k : string) (v : json) :
  dict_get o k = Some v -> exists k0, In (k0, v) o.
Proof.
  induction o as [| [k' v'] o IH]; cbn [dict_get]; [discriminate |].
  destruct (String.eqb k' k).
  - intros [= ->]. exists k'. now left.
  - intros H. destruct (IH H) as [k0 Hin]. exists k0. now right.
Qed.

Lemma dict_get_keys_unique (o : dict) (k : string) (v : json) :
  keys_unique (JObject o) -> dict_get o k = Some v -> keys_unique v.
Proof.
  rewrite keys_unique_object. intros [_ Hall] Hget.
  destruct (dict_get_in _ _ _ Hget) as [k0 Hin].
  rewrite Forall_forall in Hall. exact (Hall _ Hin).
Qed.

Lemma subscript_keys_unique (l : list json) (k : Z) (i : nat) (v : json) :
  keys_unique (JArray l) -> subscript l k = Some (i, v) -> keys_unique v.
Proof.
  rewrite keys_unique_array. intros Hall Hs.
  apply subscript_nth, nth_error_In in Hs.
  rewrite Forall_forall in Hall. exact (Hall _ Hs).
Qed.

Lemma dict_set_keys (o : dict) (k : string) (v : json) :
  map fst (dict_set o k v)
  = if dict_mem o k then map fst o else map fst o ++ [k].
Proof.
  unfold dict_mem.
  induction o as [| [k' v'] o IH]; cbn [dict_set dict_get map fst app]; [reflexivity |].
  destruct (String.eqb k' k); cbn [map fst]; [reflexivity |].
  rewrite IH. now destruct (dict_get o k).
Qed.

Lemma dict_get_none_not_in (o : dict) (k : string) :
  dict_get o k = None -> ~ In k (map fst o).
Proof.
  induction o as [| [k' v'] o IH]; cbn [dict_get map fst]; [easy |].
  destruct (String.eqb k' k) eqn:E; [discriminate |].
  intros H [Hk | Hk].
  - apply String.eqb_neq in E. contradiction.
  - now apply IH.
Qed.

Lemma dict_set_keys_unique (o : dict) (k : string) (v : json) :
  keys_unique (JObject o) -> keys_unique v ->
  keys_unique (JObject (dict_set o k v)).
Proof.
  rewrite !keys_unique_object. intros [Hnd Hall] Hv. split.
  - rewrite dict_set_keys. unfold dict_mem.
    destruct (dict_get o k) eqn:Hg; [assumption |].
    apply NoDup_app; [assumption | repeat constructor; easy |].
    intros x Hx [<- | []]. now apply (dict_get_none_not_in _ _ Hg).
  - clear Hnd. induction o as [| [k' v'] o IH]; cbn [dict_set].
    + now repeat constructor.
    + inversion Hall as [| ? ? Hv' Hall']; subst.
      destruct (String.eqb k' k); constructor; auto.
Qed.

Lemma dict_del_keys_incl (o : dict) (k x : string) :
  In x (map fst (dict_del o k)) -> In x (map fst o).
Proof.
  induction o as [| [k1 v1] o IHo]; cbn [dict_del]; [easy |].
  destruct (String.eqb k1 k).
  - intros Hin. now right.
  - intros [Hx | Hin]; [now left | right; now apply IHo].
Qed.

Lemma dict_del_keys_unique (o : dict) (k : string) :
  keys_unique (JObject o) -> keys_unique (JObject (dict_del o k)).
Proof.
  rewrite !keys_unique_object. intros [Hnd Hall].
  induction o as [| [k' v'] o IH]; cbn [dict_del]; [now split |].
  cbn [map fst] in Hnd.
  inversion Hnd as [| ? ? Hnotin Hnd']; subst.
  inversion Hall as [| ? ? Hv' Hall']; subst.
  destruct (String.eqb k' k); [now split |].
  destruct (IH Hnd' Hall') as [IHnd IHall]. split.
  - cbn [map fst]. constructor; [| assumption].
    intros Hin. apply Hnotin. now apply dict_del_keys_incl in Hin.
  - now constructor.
Qed.

Section ForallParts.
Context {A : Type} (P : A -> Prop).

Lemma Forall_firstn (n : nat) (l : list A) : Forall P l -> Forall P (firstn n l).
Proof.
  intros H. revert n. induction H as [| x l Hx _ IH]; intros [| n]; cbn [firstn];
    constructor; auto.
Qed.

Lemma Forall_skipn (n : nat) (l : list A) : Forall P l -> Forall P (skipn n l).
Proof.
  intros H. revert n. induction H as [| x l Hx Hl IH]; intros [| n]; cbn [skipn];
    try constructor; auto.
Qed.

End ForallParts.

Lemma set_at_keys_unique (l : list json) (i : nat) (v : json) :
  keys_unique (JArray l) -> keys_unique v ->
  keys_unique (JArray (PyList.set_at l i v)).
Proof.
  rewrite !keys_unique_array. intros Hall Hv. unfold PyList.set_at.
  apply Forall_app. split; [now apply Forall_firstn |].
  constructor; [assumption | now apply Forall_skipn].
Qed.

Lemma insert_at_keys_unique (l : list json) (i : nat) (v : json) :
  keys_unique (JArray l) -> keys_unique v ->
  keys_unique (JArray (PyList.insert_at l i v)).
Proof.
  rewrite !keys_unique_array. intros Hall Hv. unfold PyList.insert_at.
  apply Forall_app. split; [now apply Forall_firstn |].
  constructor; [assumption | now apply Forall_skipn].
Qed.

Lemma del_at_keys_unique (l : list json) (i : nat) :
  keys_unique (JArray l) -> keys_unique (JArray (PyList.del_at l i)).
Proof.
  rewrite !keys_unique_array. intros Hall. unfold PyList.del_at.
  apply Forall_app. split; [now apply Forall_firstn | now apply Forall_skipn].
Qed.

Lemma append_keys_unique (l : list json) (v : json) :
  keys_unique (JArray l) -> keys_unique v -> keys_unique (JArray (l ++ [v])).
Proof.
  rewrite !keys_unique_array. intros Hall Hv.
  apply Forall_app. split; [assumption | now repeat constructor].
Qed.

Lemma empty_object_keys_unique : keys_unique (JObject []).
Proof. cbn. split; [constructor | exact I]. Qed.

(** What [pointer_get] returns from a document with distinct keys has
    distinct keys. *)
Lemma get_loop_keys_unique (tokens : list string) :
  forall cur v, keys_unique cur -> get_loop cur tokens = Ok v -> keys_unique v.
Proof.
  induction tokens as [| t tokens IH]; intros cur v Hcur; cbn [get_loop].
  - now intros [= <-].
  - destruct cur as [| | | | l | o]; try discriminate.
    + destruct (String.eqb t "-"); [discriminate |].
      destruct (PyStr.int t) as [k |]; [| discriminate].
      destruct (subscript l k) as [[i child] |] eqn:Hs; [| discriminate].
      apply IH. eapply subscript_keys_unique; eassumption.
    + destruct (dict_get o t) as [child |] eqn:Hg; [| discriminate].
      apply IH. eapply dict_get_keys_unique; eassumption.
Qed.

Lemma plug1_keys_unique (f : frame) (x : json) :
  frame_keys_unique f -> keys_unique x -> keys_unique (plug1 f x).
Proof.
  destruct f as [o k | l i]; cbn [frame_keys_unique plug1].
  - apply dict_set_keys_unique.
  - apply set_at_keys_unique.
Qed.

Lemma plug_keys_unique (ctx : list frame) (x : json) :
  Forall frame_keys_unique ctx -> keys_unique x -> keys_unique (plug ctx x).
Proof.
  induction 1 as [| f ctx Hf _ IH]; intros Hx; [exact Hx |].
  rewrite plug_cons. apply plug1_keys_unique; auto.
Qed.

Lemma under_keys_unique (f : frame) (r : mres (list frame * json)) :
  frame_keys_unique f ->
  match r with
  | Ret (ctx, p) => Forall frame_keys_unique ctx /\ keys_unique p
  | Fail _ d => keys_unique d
  end ->
  match under f r with
  | Ret (ctx, p) => Forall frame_keys_unique ctx /\ keys_unique p
  | Fail _ d => keys_unique d
  end.
Proof.
  intros Hf. destruct r as [[ctx p] | e d]; cbn [under].
  - intros [Hctx Hp]. split; [now constructor | assumption].
  - now apply plug1_keys_unique.
Qed.

Lemma ensure_loop_keys_unique (tokens : list string) :
  forall cur, keys_unique cur ->
    match ensure_loop cur tokens with
    | Ret (ctx, p) => Forall frame_keys_unique ctx /\ keys_unique p
    | Fail _ d => keys_unique d
    end.
Proof.
  induction tokens as [| t tokens IH]; intros cur Hcur; cbn [ensure_loop].
  - now split.
  - destruct cur as [| | | | l | o]; try exact Hcur.
    + destruct (PyStr.int t) as [k |]; [| exact Hcur].
      destruct (subscript l k) as [[i child] |] eqn:Hs; [| exact Hcur].
      apply under_keys_unique; [exact Hcur |].
      apply IH. eapply subscript_keys_unique; eassumption.
    + destruct (dict_get o t) as [child |] eqn:Hg.
      * apply under_keys_unique; [exact Hcur |].
        apply IH. eapply dict_get_keys_unique; eassumption.
      * apply under_keys_unique.
        -- apply dict_set_keys_unique; [exact Hcur | apply empty_object_keys_unique].
        -- apply IH. apply empty_object_keys_unique.
Qed.

Lemma ensure_parent_keys_unique (doc : json) (tokens : list string) :
  keys_unique doc ->
  match _ensure_parent doc tokens with
  | Ret (ctx, (p, _)) => Forall frame_keys_unique ctx /\ keys_unique p
  | Fail _ d => keys_unique d
  end.
Proof.
  intros Hdoc. unfold _ensure_parent.
  pose proof (ensure_loop_keys_unique (removelast tokens) doc Hdoc) as H.
  now destruct (ensure_loop doc (removelast tokens)) as [[ctx p] |].
Qed.

Lemma pointer_add_keys_unique (doc : json) (ptr : string) (value : json) :
  keys_unique doc -> keys_unique value ->
  ends_keys_unique (pointer_add doc ptr value).
Proof.
  intros Hdoc Hvalue. unfold pointer_add.
  keys_unique_edit Hdoc ensure_parent_keys_unique;
    keys_unique_cases plug_keys_unique; try assumption.
  - now apply append_keys_unique.
  - now apply insert_at_keys_unique.
  - now apply dict_set_keys_unique.
Qed.

Lemma pointer_replace_keys_unique (doc : json) (ptr : string) (value : json) :
  keys_unique doc -> keys_unique value ->
  ends_keys_unique (pointer_replace doc ptr value).
Proof.
  intros Hdoc Hvalue. unfold pointer_replace.
  keys_unique_edit Hdoc ensure_parent_keys_unique;
    keys_unique_cases plug_keys_unique; try assumption.
  - now apply set_at_keys_unique.
  - now apply dict_set_keys_unique.
Qed.

Lemma pointer_remove_keys_unique (doc : json) (ptr : string) :
  keys_unique doc -> ends_keys_unique (pointer_remove doc ptr).
Proof.
  intros Hdoc. unfold pointer_remove.
  keys_unique_edit Hdoc ensure_parent_keys_unique;
    keys_unique_cases plug_keys_unique; try assumption.
  - now apply del_at_keys_unique.
  - now apply dict_del_keys_unique.
Qed.

Lemma pointer_get_keys_unique (doc : json) (ptr : string) (v : json) :
  keys_unique doc -> pointer_get doc ptr = Ok v -> keys_unique v.
Proof.
  intros Hdoc. unfold pointer_get.
  destruct (_split_pointer ptr) as [tokens | e]; [| discriminate].
  now apply get_loop_keys_unique.
Qed.

Lemma get_or_none_keys_unique (fields : dict) (k : string) :
  keys_unique (JObject fields) -> keys_unique (dict_get_or_none fields k).
Proof.
  intros H. unfold dict_get_or_none.
  destruct (dict_get fields k) eqn:Hg; [| exact I].
  eapply dict_get_keys_unique; eassumption.
Qed.

Lemma apply_op_keys_unique (i : nat) (doc op : json) :
  keys_unique doc -> keys_unique op -> ends_keys_unique (apply_op i doc op).
Proof.
  intros Hdoc Hop. unfold apply_op.
  destruct op as [| | | | | fields]; try exact Hdoc.
  pose proof (get_or_none_keys_unique fields "value" Hop) as Hvalue.
  destruct (_ && _); [exact Hdoc |].
  destruct (dict_get_or_none fields "path") as [| | | path | |]; try exact Hdoc.
  destruct (is_op _ "add"); [now apply pointer_add_keys_unique |].
  destruct (is_op _ "remove"); [now apply pointer_remove_keys_unique |].
  destruct (is_op _ "replace"); [now apply pointer_replace_keys_unique |].
  destruct (is_op _ "move").
  { destruct (dict_get_or_none fields "from") as [| | | from | |]; try exact Hdoc.
    destruct (pointer_get doc from) as [val | e] eqn:Hget; [| exact Hdoc].
    pose proof (pointer_get_keys_unique _ _ _ Hdoc Hget) as Hval.
    pose proof (pointer_remove_keys_unique doc from Hdoc) as Hrem.
    destruct (pointer_remove doc from) as [doc1 | e d]; [| exact Hrem].
    now apply pointer_add_keys_unique. }
  destruct (is_op _ "copy").
  { destruct (dict_get_or_none fields "from") as [| | | from | |]; try exact Hdoc.
    destruct (pointer_get doc from) as [val | e] eqn:Hget; [| exact Hdoc].
    apply pointer_add_keys_unique; [assumption |].
    exact (pointer_get_keys_unique _ _ _ Hdoc Hget). }
  destruct (is_op _ "test"); [| exact Hdoc].
  destruct (pointer_get doc path) as [cur | e]; [| exact Hdoc].
  now destruct (negb _).
Qed.

(** X8.  No operation of a patch produces a duplicate key.  If the keys of
    the document are distinct at every object, and so are those of every
    operation of the patch (as [json.loads] guarantees of both), they are
    distinct at every object of the document [apply_patch] returns, and
    also of the document a failing [apply_patch] leaves behind. *)
Theorem apply_patch_keys_unique (doc : json) (patch : list json) :
  keys_unique doc -> Forall keys_unique patch ->
  ends_keys_unique (apply_patch doc patch).
Proof.
  unfold apply_patch. generalize 0%nat as i.
  intros i Hdoc Hpatch. revert i doc Hdoc.
  induction Hpatch as [| op patch Hop _ IH]; intros i doc Hdoc;
    cbn [apply_patch_from]; [exact Hdoc |].
  pose proof (apply_op_keys_unique i doc op Hdoc Hop) as H.
  destruct (apply_op i doc op) as [doc' | e d]; [now apply IH | exact H].
Qed.

Lemma apply_patch_keys_unique_witness :
  ends_keys_unique
    (apply_patch (JObject [("a", JNum 1)])
       [op_move "/a" "/b/c"; op_add "/a" (JObject [("k", JNull)])]).
Proof.
  apply apply_patch_keys_unique.
  - cbn. repeat constructor. intros [].
  - repeat constructor; cbn; repeat constructor; cbn; intuition discriminate.
Defined.

Lemma tests_leave_document_witness :
  let doc := JObject [("id", JStr "T001")] in
  let patch := [JObject [("op", JStr "test"); ("path", JStr "/id");
                         ("value", JStr "T001")];
                JObject [("op", JStr "test"); ("path", JStr "/name")]] in
  apply_patch_from 0 doc patch = Ret doc
  \/ exists e, apply_patch_from 0 doc patch = Fail e doc.
Proof.
  apply (tests_leave_document
           [JObject [("op", JStr "test"); ("path", JStr "/id");
                     ("value", JStr "T001")];
            JObject [("op", JStr "test"); ("path", JStr "/name")]]).
  repeat constructor.
  - exists [("op", JStr "test"); ("path", JStr "/id"); ("value", JStr "T001")], "/id".
    repeat split.
  - exists [("op", JStr "test"); ("path", JStr "/name")], "/name".
    repeat split.
Defined.

(** ** Removals on documents with distinct keys *)

Lemma dict_get_not_in (o : dict) (k : string) :
  ~ In k (map fst o) -> dict_get o k = None.
Proof.
  induction o as [| [k' v'] o IH]; cbn [dict_get map fst]; [reflexivity |].
  intros H. destruct (String.eqb k' k) eqn:E.
  - apply String.eqb_eq in E. exfalso. apply H. now left.
  - apply IH. intros Hin. apply H. now right.
Qed.

Lemma dict_get_del_same (o : dict) (k : string) :
  NoDup (map fst o) -> dict_get (dict_del o k) k = None.
Proof.
  induction o as [| [k' v'] o IH]; cbn [dict_del map fst]; [reflexivity |].
  intros Hnd. inversion Hnd as [| ? ? Hnotin Hnd']; subst.
  destruct (String.eqb k' k) eqn:E.
  - apply String.eqb_eq in E. subst k'. now apply dict_get_not_in.
  - cbn [dict_get]. rewrite E. now apply IH.
Qed.

(** X11.  A member that was removed is gone: on a document with distinct
    keys, after [pointer_remove] has removed a member of an object,
    [pointer_get] at the same pointer raises [KeyError] for the last
    token. *)
Theorem get_after_remove
  (doc : json) (ptr : string) (tokens : list string) (ctx : list frame)
  (o : dict) (t : string) (d' : json) :
  keys_unique doc ->
  _split_pointer ptr = Ok tokens ->
  _ensure_parent doc tokens = Ret (ctx, (JObject o, t)) ->
  pointer_remove doc ptr = Ret d' ->
  pointer_get d' ptr = Raise (KeyError t).
Proof.
  intros Hdoc Hsplit Hens Hrem.
  pose proof (ensure_parent_keys_unique doc tokens Hdoc) as Hku.
  rewrite Hens in Hku. destruct Hku as [_ Ho].
  apply keys_unique_object in Ho. destruct Ho as [Hnd _].
  unfold pointer_remove, pointer_get in *. rewrite Hsplit in *.
  destruct (is_nil tokens) eqn:Hnil; [discriminate |].
  rewrite Hens in Hrem.
  destruct (dict_mem o t); [| discriminate]. injection Hrem as <-.
  rewrite (tokens_snoc tokens Hnil).
  unfold _ensure_parent in Hens.
  destruct (ensure_loop doc (removelast tokens)) as [[ctx0 p0] |] eqn:Hwalk;
    [| discriminate].
  injection Hens as -> -> <-.
  rewrite (get_loop_plug _ _ _ _ Hwalk). cbn [get_loop].
  now rewrite dict_get_del_same.
Qed.

Lemma get_after_remove_witness :
  pointer_get (JObject [("a", JObject [])]) "/a/b" = Raise (KeyError "b").
Proof.
  apply (get_after_remove (JObject [("a", JObject [("b", JNum 1)])]) "/a/b"
           ["a"; "b"] [InDict [("a", JObject [("b", JNum 1)])] "a"]
           [("b", JNum 1)] "b"); try reflexivity.
  cbn. repeat constructor; cbn; intuition discriminate.
Defined.

(** ** Copies and clones *)

Lemma apply_op_copy
  (i : nat) (doc : json) (fields : dict) (from path : string) :
  dict_get fields "op" = Some (JStr "copy") ->
  dict_get fields "from" = Some (JStr from) ->
  dict_get fields "path" = Some (JStr path) ->
  apply_op i doc (JObject fields)
  = match pointer_get doc from with
    | Raise e => Fail e doc
    | Ok val => pointer_add doc path val
    end.
Proof.
  intros Hop Hfrom Hpath. unfold apply_op.
  rewrite (get_or_none_some _ _ _ Hop), (get_or_none_some _ _ _ Hfrom),
    (get_or_none_some _ _ _ Hpath).
  reflexivity.
Qed.

(** X12.  After a [copy] both places hold the value.  Let the [from] and
    [path] pointers of a [copy] operation share the tokens [pre], which
    resolve to an object, and continue with different keys.  When the
    operation succeeds, the value going into an object or into an array at
    an index token [k] with [0 <= k <= len], [pointer_get] finds at [from]
    the value it found before, and finds the same value at [path]. *)
Theorem copy_keeps_source
  (i : nat) (doc : json) (fields : dict) (from path : string)
  (pre : list string) (k : string) (rest : list string)
  (k' : string) (rest' : list string) (o : dict) (d' : json) :
  dict_get fields "op" = Some (JStr "copy") ->
  dict_get fields "from" = Some (JStr from) ->
  dict_get fields "path" = Some (JStr path) ->
  _split_pointer path = Ok (pre ++ k :: rest) ->
  _split_pointer from = Ok (pre ++ k' :: rest') ->
  get_loop doc pre = Ok (JObject o) ->
  k' <> k ->
  apply_op i doc (JObject fields) = Ret d' ->
  (forall ctx l last,
      _ensure_parent doc (pre ++ k :: rest) = Ret (ctx, (JArray l, last)) ->
      exists n, PyStr.int last = Some n
                /\ (0 <= n <= Z.of_nat (List.length l))%Z) ->
  exists val,
    pointer_get doc from = Ok val
    /\ pointer_get d' from = Ok val
    /\ pointer_get d' path = Ok val.
Proof.
  intros Hop Hfrom Hpath Hsp Hsf Hpre Hne Hrun Harr.
  rewrite (apply_op_copy i doc fields from path Hop Hfrom Hpath) in Hrun.
  destruct (pointer_get doc from) as [val | e] eqn:Hget; [| discriminate].
  exists val. split; [reflexivity |]. split.
  - rewrite <- Hget.
    apply (edit_frame doc path from pre k rest k' rest' o val d'); auto.
  - apply (add_then_get doc path _ val d' Hsp Hrun Harr).
Qed.

Lemma copy_keeps_source_witness :
  exists val,
    pointer_get (JObject [("a", JObject [("id", JStr "T1")])]) "/a" = Ok val
    /\ pointer_get (JObject [("a", JObject [("id", JStr "T1")]);
                             ("b", JObject [("c", JObject [("id", JStr "T1")])])])
         "/a" = Ok val
    /\ pointer_get (JObject [("a", JObject [("id", JStr "T1")]);
                             ("b", JObject [("c", JObject [("id", JStr "T1")])])])
         "/b/c" = Ok val.
Proof.
  apply (copy_keeps_source 0 (JObject [("a", JObject [("id", JStr "T1")])])
           [("op", JStr "copy"); ("from", JStr "/a"); ("path", JStr "/b/c")]
           "/a" "/b/c" [] "b" ["c"] "a" [] [("a", JObject [("id", JStr "T1")])]);
    try reflexivity; discriminate.
Defined.

Lemma clone_layer_unfold
  (doc : json) (src dst : string) (name : option string) (layer : json) :
  pointer_get doc src = Ok layer ->
  exists clone,
    clone_layer doc src dst name = pointer_add doc dst clone
    /\ named_clone name layer clone.
Proof.
  intros Hget. unfold clone_layer, deep_copy, named_clone. rewrite Hget.
  destruct name as [n |]; [| now eexists].
  destruct layer as [| | | | | o]; try now eexists.
  destruct (String.eqb n ""); cbn [negb]; [now eexists |].
  eexists. split; [reflexivity |].
  exists (dict_set o "name" (JStr n)). split; [reflexivity |]. split.
  - apply dict_get_set_same.
  - intros k Hk. apply dict_get_set_other. congruence.
Qed.



(** X14.  Cloning to a new place keeps the source.  Let the source and
    destination pointers of [clone_layer] share the tokens [pre], which
    resolve to an object, and continue with different keys.  When the call
    succeeds, the clone going into an object or into an array at an index
    token [k] with [0 <= k <= len], [pointer_get] still finds the layer at
    the source, name and all, and finds at the destination the clone: the
    layer under the given name. *)
Theorem clone_layer_keeps_source
  (doc : json) (src dst : string) (name : option string)
  (pre : list string) (k : string) (rest : list string)
  (k' : string) (rest' : list string) (o : dict) (d' : json) :
  _split_pointer dst = Ok (pre ++ k :: rest) ->
  _split_pointer src = Ok (pre ++ k' :: rest') ->
  get_loop doc pre = Ok (JObject o) ->
  k' <> k ->
  clone_layer doc src dst name = Ret d' ->
  (forall ctx l last,
      _ensure_parent doc (pre ++ k :: rest) = Ret (ctx, (JArray l, last)) ->
      exists n, PyStr.int last = Some n
                /\ (0 <= n <= Z.of_nat (List.length l))%Z) ->
  exists layer clone,
    pointer_get doc src = Ok layer
    /\ pointer_get d' src = Ok layer
    /\ pointer_get d' dst = Ok clone
    /\ named_clone name layer clone.
Proof.
  intros Hsd Hss Hpre Hne Hrun Harr.
  destruct (pointer_get doc src) as [layer | e] eqn:Hget.
  2: { unfold clone_layer in Hrun. rewrite Hget in Hrun. discriminate. }
  destruct (clone_layer_unfold doc src dst name layer Hget) as (clone & Heq & Hclone).
  rewrite Heq in Hrun.
  exists layer, clone. split; [reflexivity |]. split; [| split; [| exact Hclone]].
  - rewrite <- Hget.
    apply (edit_frame doc dst src pre k rest k' rest' o clone d'); auto.
  - apply (add_then_get doc dst _ clone d' Hsd Hrun Harr).
Qed.

Lemma clone_layer_keeps_source_witness :
  exists layer clone,
    pointer_get (JObject [("base", JObject [("name", JStr "one")])]) "/base" = Ok layer
    /\ pointer_get (JObject [("base", JObject [("name", JStr "one")]);
                             ("next", JObject [("name", JStr "two")])]) "/base"
       = Ok layer
    /\ pointer_get (JObject [("base", JObject [("name", JStr "one")]);
                             ("next", JObject [("name", JStr "two")])]) "/next"
       = Ok clone
    /\ named_clone (Some "two") layer clone.
Proof.
  apply (clone_layer_keeps_source
           (JObject [("base", JObject [("name", JStr "one")])])
           "/base" "/next" (Some "two") [] "next" [] "base" []
           [("base", JObject [("name", JStr "one")])]);
    try reflexivity; discriminate.
Defined.

(** ** The calls of a commit *)

(** [write_atomic] makes the calls of [commit_calls] and no other, with the
    backup copy among them when [make_backup] is set and the target is
    there. *)
Lemma write_atomic_run
  (json_dumps : json -> string) (sha256_bytes : string -> string)
  (mkstemp : string -> Store.files -> string) (utcnow : Store.datetime)
  (path : string) (obj : json) (make_backup : bool) (w : Store.world) :
  let tmp := mkstemp path (Store.fs_of w) in
  let data := json_dumps obj in
  let bak := Store.bak_path_of utcnow path (sha256_bytes data) in
  let present := match Store.fs_of w path with Some _ => true | None => false end in
  let calls := commit_calls tmp data path bak (make_backup && present) in
  tmp <> path ->
  Store.write_atomic json_dumps sha256_bytes mkstemp utcnow path obj make_backup w
  = (path, sha256_bytes data,
     Store.World (Store.replay calls (Store.fs_of w)) (Store.trace w ++ calls)).
Proof.
  intros tmp data bak present calls Hne.
  assert (Hsame : Store.update (Store.update (Store.fs_of w) tmp (Some "")) tmp
                    (Some data) path = Store.fs_of w path).
  { rewrite !update_other; congruence. }
  unfold Store.write_atomic, Store.bind, Store.do_call, Store.path_exists, Store.ret.
  cbn [Store.fs_of Store.trace Store.exec].
  fold tmp data. rewrite Hsame. fold present bak.
  unfold calls, commit_calls.
  destruct (make_backup && present);
    cbn [Store.fs_of Store.trace Store.exec app Store.replay fold_left];
    rewrite <- !app_assoc; reflexivity.
Qed.



(** X16.  The target never holds anything but a whole revision.  When the
    temporary file is not the target itself, then in the file system after
    each call that [write_atomic] makes (so wherever the run might be cut
    short) the target holds exactly what it held before the commit (or is
    still absent), or exactly the new bytes. *)
Theorem write_atomic_never_partial
  (json_dumps : json -> string) (sha256_bytes : string -> string)
  (mkstemp : string -> Store.files -> string) (utcnow : Store.datetime)
  (path : string) (obj : json) (make_backup : bool) (w : Store.world) :
  let tmp := mkstemp path (Store.fs_of w) in
  let data := json_dumps obj in
  let out := Store.write_atomic json_dumps sha256_bytes mkstemp utcnow
               path obj make_backup w in
  tmp <> path ->
  exists calls,
    Store.trace (snd out) = Store.trace w ++ calls
    /\ Store.fs_of (snd out) = Store.replay calls (Store.fs_of w)
    /\ forall n,
         let fs := Store.replay (firstn n calls) (Store.fs_of w) in
         fs path = Store.fs_of w path \/ fs path = Some data.
Proof.
  intros tmp data out Hne. unfold out.
  rewrite (write_atomic_run json_dumps sha256_bytes mkstemp utcnow path obj
             make_backup w Hne).
  fold tmp data. cbn [snd Store.fs_of Store.trace].
  eexists. split; [reflexivity |]. split; [reflexivity |].
  assert (Hbak : Store.bak_path_of utcnow path (sha256_bytes data) <> path).
  { unfold Store.bak_path_of. intros E.
    apply append_right_neutral_only in E. discriminate. }
  intros n. unfold commit_calls.
  destruct (make_backup && _); cbn [app];
    do 5 (try destruct n as [| n]);
    cbn [firstn Store.replay fold_left Store.exec];
    rewrite ?update_same;
    repeat (rewrite update_other by congruence);
    rewrite ?update_same;
    repeat (rewrite update_other by congruence);
    auto;
    match goal with
    | |- context [Store.update _ ?b _ tmp] =>
        destruct (String.eqb_spec tmp b) as [E | E];
        [ rewrite <- E, !update_same; left;
          now rewrite !update_other by congruence
        | rewrite !(update_other _ _ _ _ E), !update_same; now right ]
    end.
Qed.

Lemma write_atomic_never_partial_witness :
  let w := Store.World (Store.update (fun _ => None) "/d/plan.json" (Some "old")) [] in
  let out := Store.write_atomic (fun _ => "{}") (fun _ => "44136fa355b3678a")
               (fun _ _ => "/d/.jsontmp-k3x9_q0a") (Store.Datetime 2026 11 3 9 5 7)
               "/d/plan.json" (JObject []) true w in
  exists calls,
    Store.trace (snd out) = Store.trace w ++ calls
    /\ Store.fs_of (snd out) = Store.replay calls (Store.fs_of w)
    /\ forall n,
         let fs := Store.replay (firstn n calls) (Store.fs_of w) in
         fs "/d/plan.json" = Store.fs_of w "/d/plan.json"
         \/ fs "/d/plan.json" = Some "{}".
Proof.
  apply (write_atomic_never_partial (fun _ => "{}") (fun _ => "44136fa355b3678a")
           (fun _ _ => "/d/.jsontmp-k3x9_q0a") (Store.Datetime 2026 11 3 9 5 7)
           "/d/plan.json" (JObject []) true
           (Store.World (Store.update (fun _ => None) "/d/plan.json" (Some "old")) [])).
  discriminate.
Defined.

(** ** What a pointer can name *)

Lemma unescape_plain (c : ascii) (raw : string) :
  c <> "~"%char ->
  _unescape_token (String c raw) = String c (_unescape_token raw).
Proof.
  intros Hc. unfold _unescape_token.
  now rewrite !replace2_other by assumption.
Qed.

Lemma unescape_slash (raw : string) :
  _unescape_token (String "~" (String "1" raw)) = String "/" (_unescape_token raw).
Proof.
  unfold _unescape_token. rewrite replace2_hit. cbn [append].
  now rewrite replace2_other by discriminate.
Qed.

Lemma unescape_tilde (raw : string) :
  _unescape_token (String "~" (String "0" raw)) = String "~" (_unescape_token raw).
Proof.
  unfold _unescape_token.
  rewrite replace2_miss by (right; discriminate).
  rewrite (replace2_other "~" "1" "/" "0") by discriminate.
  now rewrite replace2_hit.
Qed.

Lemma split_not_nil (sep : ascii) (s : string) : PyStr.split sep s <> [].
Proof.
  destruct s as [| c s]; cbn [PyStr.split]; [discriminate |].
  destruct (Ascii.eqb c sep); [discriminate |].
  now destruct (PyStr.split sep s).
Qed.

Lemma split_single (sep : ascii) (s x : string) :
  PyStr.split sep s = [x] -> x = s.
Proof.
  revert x. induction s as [| c s IH]; intros x; cbn [PyStr.split].
  - now intros [= <-].
  - destruct (Ascii.eqb c sep).
    + intros [= _ H]. now apply split_not_nil in H.
    + destruct (PyStr.split sep s) as [| h t] eqn:E; [now apply split_not_nil in E |].
      intros [= <- ->]. now rewrite (IH h eq_refl).
Qed.

Lemma split_cons_plain (sep c : ascii) (s : string) :
  c <> sep -> PyStr.split sep s = [s] ->
  PyStr.split sep (String c s) = [String c s].
Proof.
  intros Hc Hs. cbn [PyStr.split]. rewrite Hs.
  apply Ascii.eqb_neq in Hc. now rewrite Hc.
Qed.

Lemma split_app_sep (sep : ascii) (r s : string) :
  PyStr.split sep r = [r] ->
  PyStr.split sep (r ++ String sep s) = r :: PyStr.split sep s.
Proof.
  induction r as [| c r IH]; cbn [append PyStr.split].
  - intros _. now rewrite Ascii.eqb_refl.
  - destruct (Ascii.eqb c sep); [intros [= _ H]; now apply split_not_nil in H |].
    destruct (PyStr.split sep r) as [| h t] eqn:E; [now apply split_not_nil in E |].
    intros [= -> ->]. now rewrite (IH eq_refl).
Qed.

(** Every token is the unescaping of a raw token without ["/"]. *)
Lemma token_has_raw (t : string) :
  exists raw, PyStr.split "/" raw = [raw]
              /\ _unescape_token raw = t
              /\ (raw = "" -> t = "").
Proof.
  induction t as [| c t (raw & Hsplit & Hun & _)].
  - now exists "".
  - destruct (ascii_dec c "/") as [-> | Hslash].
    + exists (String "~" (String "1" raw)). split; [| split; [| discriminate]].
      * now repeat (apply split_cons_plain; [discriminate |]).
      * now rewrite unescape_slash, Hun.
    + destruct (ascii_dec c "~") as [-> | Htilde].
      * exists (String "~" (String "0" raw)). split; [| split; [| discriminate]].
        -- now repeat (apply split_cons_plain; [discriminate |]).
        -- now rewrite unescape_tilde, Hun.
      * exists (String c raw). split; [| split; [| discriminate]].
        -- now apply split_cons_plain.
        -- now rewrite unescape_plain, Hun.
Qed.

Lemma tokens_have_body (tokens : list string) :
  tokens <> [] ->
  exists body, map _unescape_token (PyStr.split "/" body) = tokens
               /\ (body = "" -> tokens = [""]).
Proof.
  induction tokens as [| t tokens IH]; [easy |]. intros _.
  destruct (token_has_raw t) as (raw & Hsplit & Hun & Hempty).
  destruct tokens as [| t2 tokens].
  - exists raw. split.
    + rewrite Hsplit. cbn [map]. now rewrite Hun.
    + intros ->. now rewrite (Hempty eq_refl).
  - destruct (IH ltac:(discriminate)) as (body & Hbody & _).
    exists (raw ++ String "/" body)%string. split.
    + rewrite (split_app_sep _ _ _ Hsplit). cbn [map]. now rewrite Hun, Hbody.
    + intros E. destruct raw; discriminate.
Qed.

Lemma unescape_empty (raw : string) : _unescape_token raw = "" -> raw = "".
Proof.
  rewrite (unescape_independent_bounded (String.length raw) raw (le_n _)).
  destruct raw as [| c [| d raw]]; cbn [unescape_independent]; try easy.
  now destruct (Ascii.eqb c "~" && Ascii.eqb d "1"),
               (Ascii.eqb c "~" && Ascii.eqb d "0").
Qed.

(** X17.  Which places a pointer can name.  Every sequence of tokens is
    the reading of some pointer string, whatever characters the tokens
    contain (["/"] and ["~"] included), with one exception: no pointer
    reads as the single empty token, because ["/"] is read as the pointer
    to the root; so a member with the empty name at the top of the document
    cannot be addressed. *)
Theorem split_pointer_reach :
  (forall tokens, tokens <> [""] -> exists ptr, _split_pointer ptr = Ok tokens)
  /\ (forall ptr, _split_pointer ptr <> Ok [""]).
Proof.
  split.
  - intros tokens Hne. destruct tokens as [| t tokens]; [now exists "" |].
    destruct (tokens_have_body (t :: tokens) ltac:(discriminate))
      as (body & Hbody & Hempty).
    exists (String "/" body). unfold _split_pointer.
    destruct body as [| c body]; [now specialize (Hempty eq_refl) |].
    cbn [String.eqb Ascii.eqb Bool.eqb orb PyStr.startswith prefix negb].
    replace (if ascii_dec "/" "/" then true else false) with true
      by now destruct (ascii_dec "/" "/").
    cbn [negb]. change (PyStr.split "/" (String "/" (String c body)))
      with ("" :: PyStr.split "/" (String c body)).
    cbn [tl]. now rewrite Hbody.
  - intros ptr. unfold _split_pointer.
    destruct (String.eqb ptr "" || String.eqb ptr "/") eqn:Hroot; [discriminate |].
    destruct (negb (PyStr.startswith "/" ptr)) eqn:Hstart; [discriminate |].
    destruct ptr as [| c rest]; [discriminate |].
    unfold PyStr.startswith in Hstart. cbn [prefix] in Hstart.
    destruct (ascii_dec "/" c) as [<- | Hc]; [| discriminate].
    change (PyStr.split "/" (String "/" rest)) with ("" :: PyStr.split "/" rest).
    cbn [tl]. intros [= H].
    destruct (PyStr.split "/" rest) as [| x [| y l]] eqn:Hs; try discriminate.
    injection H as H. apply unescape_empty in H. subst x.
    apply split_single in Hs. subst rest. discriminate.
Qed.

Lemma split_pointer_reach_witness :
  exists ptr, _split_pointer ptr = Ok ["a/b"; ""; "m~n"].
Proof.
  apply (proj1 split_pointer_reach). discriminate.
Defined.

(** ** Merging a rendered pipeline into a plan *)

(** X18.  Updating twice with [merge_layers] is updating once.  On a plan
    that is an object, the [merge_layers] step succeeds; its result has the
    layers of the rendered pipeline ([[]] if it has none), every member of
    the old plan other than ["layers"] and ["orchestrator"] as it was, and
    merging the same pipeline into the result again changes nothing. *)
Theorem merge_layers_idempotent (o : dict) (rendered_pipeline : dict) :
  exists merged : dict,
    merge_plans "merge_layers" (JObject o) rendered_pipeline = Some (JObject merged)
    /\ dict_get merged "layers"
       = Some (dict_get_default rendered_pipeline "layers" (JArray []))
    /\ (forall k, k <> "layers" -> k <> "orchestrator" ->
                  dict_get merged k = dict_get o k)
    /\ merge_plans "merge_layers" (JObject merged) rendered_pipeline
       = Some (JObject merged).
Proof.
  unfold merge_plans.
  change (String.eqb "merge_layers" "replace") with false.
  change (String.eqb "merge_layers" "merge_layers") with true.
  cbv iota.
  set (layers := dict_get_default rendered_pipeline "layers" (JArray [])).
  destruct (dict_get rendered_pipeline "orchestrator") as [orch |].
  - exists (dict_set (dict_set o "layers" layers) "orchestrator" orch).
    assert (Hl : dict_get (dict_set (dict_set o "layers" layers) "orchestrator" orch)
                   "layers" = Some layers).
    { rewrite dict_get_set_other by discriminate. apply dict_get_set_same. }
    split; [reflexivity |]. split; [exact Hl |]. split.
    + intros k Hk1 Hk2. now rewrite !dict_get_set_other by congruence.
    + rewrite (dict_set_get_id _ _ _ Hl).
      now rewrite (dict_set_get_id _ _ _ (dict_get_set_same _ _ _)).
  - exists (dict_set o "layers" layers).
    split; [reflexivity |]. split; [apply dict_get_set_same |]. split.
    + intros k Hk1 Hk2. now rewrite dict_get_set_other by congruence.
    + now rewrite dict_set_set.
Qed.

(** X19.  [append_layers] puts the rendered layers after the present ones,
    every time.  On a plan that is an object whose ["layers"] is the list
    [l1], with a rendered pipeline whose ["layers"] is the list [l2], the
    [append_layers] step gives the plan with ["layers"] set to [l1 ++ l2]
    and every other member as it was (no other member of the pipeline is
    taken over); so running the same update again appends [l2] once
    more. *)
Theorem append_layers_concatenates
  (o : dict) (rendered_pipeline : dict) (l1 l2 : list json) :
  dict_get o "layers" = Some (JArray l1) ->
  dict_get rendered_pipeline "layers" = Some (JArray l2) ->
  exists merged : dict,
    merge_plans "append_layers" (JObject o) rendered_pipeline = Some (JObject merged)
    /\ dict_get merged "layers" = Some (JArray (l1 ++ l2))
    /\ (forall k, k <> "layers" -> dict_get merged k = dict_get o k)
    /\ map fst merged = map fst o
    /\ merge_plans "append_layers" (JObject merged) rendered_pipeline
       = Some (JObject (dict_set o "layers" (JArray ((l1 ++ l2) ++ l2)))).
Proof.
  intros Ho Hr. unfold merge_plans.
  change (String.eqb "append_layers" "replace") with false.
  change (String.eqb "append_layers" "merge_layers") with false.
  change (String.eqb "append_layers" "append_layers") with true.
  cbv iota. unfold dict_get_default. rewrite Ho, Hr. cbn [py_add].
  exists (dict_set o "layers" (JArray (l1 ++ l2))).
  split; [reflexivity |]. split; [apply dict_get_set_same |]. split; [| split].
  - intros k Hk. apply dict_get_set_other. congruence.
  - rewrite dict_set_keys. unfold dict_mem. now rewrite Ho.
  - rewrite dict_get_set_same. cbn [py_add]. now rewrite dict_set_set.
Qed.

Lemma append_layers_concatenates_witness :
  exists merged : dict,
    merge_plans "append_layers"
      (JObject [("name", JStr "plan"); ("layers", JArray [JStr "a"])])
      [("layers", JArray [JStr "b"]); ("orchestrator", JNull)]
    = Some (JObject merged)
    /\ dict_get merged "layers" = Some (JArray ([JStr "a"] ++ [JStr "b"]))
    /\ (forall k, k <> "layers" ->
          dict_get merged k
          = dict_get [("name", JStr "plan"); ("layers", JArray [JStr "a"])] k)
    /\ map fst merged = map fst [("name", JStr "plan"); ("layers", JArray [JStr "a"])]
    /\ merge_plans "append_layers" (JObject merged)
         [("layers", JArray [JStr "b"]); ("orchestrator", JNull)]
       = Some (JObject (dict_set [("name", JStr "plan"); ("layers", JArray [JStr "a"])]
                          "layers" (JArray (([JStr "a"] ++ [JStr "b"]) ++ [JStr "b"])))).
Proof.
  apply (append_layers_concatenates
           [("name", JStr "plan"); ("layers", JArray [JStr "a"])]
           [("layers", JArray [JStr "b"]); ("orchestrator", JNull)]);
    reflexivity.
Defined.

(** ** Replace as remove and add *)

Lemma insert_at_del_at {A : Type} (l : list A) (i : nat) (v : A) :
  (i < List.length l)%nat ->
  PyList.insert_at (PyList.del_at l i) i v = PyList.set_at l i v.
Proof.
  intros H. unfold PyList.insert_at, PyList.del_at, PyList.set_at.
  rewrite firstn_app, firstn_firstn, Nat.min_id, length_firstn.
  replace (i - Nat.min i (List.length l))%nat with 0%nat by lia.
  cbn [firstn]. rewrite app_nil_r. f_equal. f_equal.
  rewrite skipn_app, length_firstn.
  replace (i - Nat.min i (List.length l))%nat with 0%nat by lia.
  rewrite skipn_firstn_comm.
  replace (i - i)%nat with 0%nat by lia. reflexivity.
Qed.

Lemma length_del_at {A : Type} (l : list A) (i : nat) :
  (i < List.length l)%nat -> List.length (PyList.del_at l i) = (List.length l - 1)%nat.
Proof.
  intros H. unfold PyList.del_at.
  rewrite length_app, length_firstn, length_skipn. lia.
Qed.

(** X20.  In an array, replacing an element is removing it and adding the
    new value at the same index.  When the tokens before the last resolve
    to an array and the last token reads as an index [k] with
    [0 <= k < len] (within the machine word), [pointer_remove] at the
    pointer succeeds, and [pointer_add] of a value at the same pointer on
    its result gives exactly what [pointer_replace] gives on the original
    document. *)
Theorem replace_is_remove_then_add
  (doc : json) (ptr : string) (pre : list string) (t : string)
  (l : list json) (k : Z) (value : json) :
  _split_pointer ptr = Ok (pre ++ [t]) ->
  get_loop doc pre = Ok (JArray l) ->
  PyStr.int t = Some k ->
  (0 <= k < Z.of_nat (List.length l))%Z ->
  PyList.fits_ssize k = true ->
  exists d1,
    pointer_remove doc ptr = Ret d1
    /\ pointer_add d1 ptr value = pointer_replace doc ptr value.
Proof.
  intros Hsplit Hpre Hint Hk Hfit.
  destruct (get_loop_ensure_loop _ _ _ Hpre) as (ctx & Hens & _).
  assert (Hlt : (Z.to_nat k < List.length l)%nat) by lia.
  assert (Hsub : exists x, subscript l k = Some (Z.to_nat k, x)).
  { unfold subscript. rewrite position_in_range by assumption.
    destruct (nth_error l (Z.to_nat k)) eqn:E; [now eexists |].
    apply nth_error_None in E. lia. }
  destruct Hsub as [x Hsub].
  exists (plug ctx (JArray (PyList.del_at l (Z.to_nat k)))).
  unfold pointer_remove, pointer_add, pointer_replace.
  rewrite Hsplit, is_nil_snoc, !ensure_parent_snoc, Hens, Hint, Hsub.
  split; [reflexivity |].
  destruct (ensure_loop_plug _ _ _ _ Hens (JArray (PyList.del_at l (Z.to_nat k))))
    as (ctx' & -> & Hplug).
  rewrite (int_not_dash _ _ Hint), Hint, Hfit, Hplug.
  rewrite insert_position_in_range by (rewrite length_del_at by assumption; lia).
  now rewrite insert_at_del_at.
Qed.

Lemma replace_is_remove_then_add_witness :
  exists d1,
    pointer_remove (JObject [("x", JArray [JNum 1; JNum 2; JNum 3])]) "/x/1" = Ret d1
    /\ pointer_add d1 "/x/1" JNull
       = pointer_replace (JObject [("x", JArray [JNum 1; JNum 2; JNum 3])]) "/x/1" JNull.
Proof.
  apply (replace_is_remove_then_add
           (JObject [("x", JArray [JNum 1; JNum 2; JNum 3])]) "/x/1" ["x"] "1"
           [JNum 1; JNum 2; JNum 3] 1%Z JNull); try reflexivity.
  cbn. lia.
Defined.

(** ** Patch files that hold no array *)

(** X21.  [apply_patches_in_order.py] does not check that a patch file
    holds an array, and a file that holds something else never changes the
    document: an empty object or an empty string passes as an empty patch,
    any other object or string fails with [AttributeError] at its first
    item, and [null], a boolean or a number fails with [TypeError], each
    time with the document as it was. *)
Theorem patch_that_is_no_array (doc : json) (patch : json) :
  (forall l, patch <> JArray l) ->
  apply_patch_loaded doc patch
  = match patch with
    | JObject [] => Ret doc
    | JStr EmptyString => Ret doc
    | JObject _ => Fail AttributeError doc
    | JStr _ => Fail AttributeError doc
    | _ => Fail TypeError doc
    end.
Proof.
  intros Hna. unfold apply_patch_loaded.
  destruct patch as [| b | n | s | l | o]; try reflexivity.
  - now destruct s.
  - now destruct (Hna l).
  - now destruct o as [| [k v] o].
Qed.

Lemma patch_that_is_no_array_witness :
  apply_patch_loaded (JObject [("a", JNum 1)])
    (JObject [("op", JStr "remove"); ("path", JStr "/a")])
  = Fail AttributeError (JObject [("a", JNum 1)]).
Proof.
  apply (patch_that_is_no_array (JObject [("a", JNum 1)])
           (JObject [("op", JStr "remove"); ("path", JStr "/a")])).
  discriminate.
Defined.

Lemma merge_layers_idempotent_witness :
  exists merged : dict,
    merge_plans "merge_layers"
      (JObject [("name", JStr "plan"); ("layers", JArray [JStr "a"])])
      [("layers", JArray [JStr "b"]); ("orchestrator", JNull)]
    = Some (JObject merged)
    /\ dict_get merged "name" = Some (JStr "plan").
Proof.
  destruct (merge_layers_idempotent
              [("name", JStr "plan"); ("layers", JArray [JStr "a"])]
              [("layers", JArray [JStr "b"]); ("orchestrator", JNull)])
    as (merged & Hrun & _ & Hkeep & _).
  exists merged. split; [exact Hrun |].
  rewrite (Hkeep "name"); [reflexivity | discriminate | discriminate].
Defined.

(** ** Renaming a member with move *)

Lemma apply_op_move_fields
  (i : nat) (doc : json) (fields : dict) (from path : string) :
  dict_get fields "op" = Some (JStr "move") ->
  dict_get fields "from" = Some (JStr from) ->
  dict_get fields "path" = Some (JStr path) ->
  apply_op i doc (JObject fields)
  = match pointer_get doc from with
    | Raise e => Fail e doc
    | Ok val =>
        match pointer_remove doc from with
        | Fail e d => Fail e d
        | Ret doc1 => pointer_add doc1 path val
        end
    end.
Proof.
  intros Hop Hfrom Hpath. unfold apply_op.
  rewrite (get_or_none_some _ _ _ Hop), (get_or_none_some _ _ _ Hfrom),
    (get_or_none_some _ _ _ Hpath).
  reflexivity.
Qed.

(** X22.  A [move] between two names of one object renames the member.  In
    a document with distinct keys, let [from] and [path] name the members
    [k'] and [k] of the same object, where [k'] is present with value [v]
    and [k] is absent.  The [move] succeeds; afterwards [pointer_get] finds
    [v] at [path], raises [KeyError] at [from], and every other member of
    that object is as it was. *)
Theorem move_renames_member
  (i : nat) (doc : json) (fields : dict) (from path : string)
  (pre : list string) (k k' : string) (o : dict) (v : json) :
  keys_unique doc ->
  dict_get fields "op" = Some (JStr "move") ->
  dict_get fields "from" = Some (JStr from) ->
  dict_get fields "path" = Some (JStr path) ->
  _split_pointer from = Ok (pre ++ [k']) ->
  _split_pointer path = Ok (pre ++ [k]) ->
  get_loop doc pre = Ok (JObject o) ->
  dict_get o k' = Some v ->
  dict_get o k = None ->
  exists d',
    apply_op i doc (JObject fields) = Ret d'
    /\ pointer_get d' path = Ok v
    /\ pointer_get d' from = Raise (KeyError k')
    /\ forall k2 rest, k2 <> k -> k2 <> k' ->
         get_loop d' (pre ++ k2 :: rest) = get_loop doc (pre ++ k2 :: rest).
Proof.
  intros Hdoc Hop Hfrom Hpath Hsf Hsp Hpre Hv Hk.
  assert (Hne : k <> k') by congruence.
  destruct (get_loop_ensure_loop _ _ _ Hpre) as (ctx & Hens & _).
  pose proof (get_loop_keys_unique _ _ _ Hdoc Hpre) as Ho.
  apply keys_unique_object in Ho. destruct Ho as [Hnd _].
  set (o1 := dict_del o k').
  set (o2 := dict_set o1 k v).
  assert (Hget : pointer_get doc from = Ok v).
  { unfold pointer_get. rewrite Hsf, get_loop_app, Hpre. cbn [get_loop]. now rewrite Hv. }
  assert (Hrem : pointer_remove doc from = Ret (plug ctx (JObject o1))).
  { unfold pointer_remove, dict_mem.
    now rewrite Hsf, is_nil_snoc, ensure_parent_snoc, Hens, Hv. }
  assert (Hadd : pointer_add (plug ctx (JObject o1)) path v = Ret (plug ctx (JObject o2))).
  { unfold pointer_add, dict_mem.
    rewrite Hsp, is_nil_snoc, ensure_parent_snoc.
    destruct (ensure_loop_plug _ _ _ _ Hens (JObject o1)) as (ctx' & -> & Hplug).
    unfold o1. rewrite dict_get_del_other, Hk by congruence. now rewrite Hplug. }
  exists (plug ctx (JObject o2)).
  rewrite (apply_op_move_fields i doc fields from path Hop Hfrom Hpath).
  rewrite Hget, Hrem, Hadd. split; [reflexivity |].
  unfold pointer_get. rewrite Hsp, Hsf.
  rewrite !(get_loop_plug _ _ _ _ Hens). cbn [get_loop]. unfold o2.
  rewrite dict_get_set_same, dict_get_set_other by assumption.
  unfold o1. rewrite dict_get_del_same by assumption.
  repeat split.
  intros k2 rest Hk2 Hk2'.
  rewrite (get_loop_plug _ _ _ _ Hens), get_loop_app, Hpre, !get_loop_member.
  now rewrite dict_get_set_other, dict_get_del_other by congruence.
Qed.

Lemma move_renames_member_witness :
  exists d',
    apply_op 0 (JObject [("cfg", JObject [("old", JNum 1); ("z", JNull)])])
      (JObject [("op", JStr "move"); ("from", JStr "/cfg/old");
                ("path", JStr "/cfg/new")])
    = Ret d'
    /\ pointer_get d' "/cfg/new" = Ok (JNum 1)
    /\ pointer_get d' "/cfg/old" = Raise (KeyError "old")
    /\ forall k2 rest, k2 <> "new" -> k2 <> "old" ->
         get_loop d' (["cfg"] ++ k2 :: rest)
         = get_loop (JObject [("cfg", JObject [("old", JNum 1); ("z", JNull)])])
             (["cfg"] ++ k2 :: rest).
Proof.
  apply (move_renames_member 0
           (JObject [("cfg", JObject [("old", JNum 1); ("z", JNull)])])
           [("op", JStr "move"); ("from", JStr "/cfg/old"); ("path", JStr "/cfg/new")]
           "/cfg/old" "/cfg/new" ["cfg"] "new" "old"
           [("old", JNum 1); ("z", JNull)] (JNum 1));
    try reflexivity.
  cbn. repeat constructor; cbn; intuition discriminate.
Defined.
